(** * Custom error classes and error blocks (node-custom-errors 0.1.5)

    A shallow embedding of [create], [helpers.inherit], the two built-in
    error classes and the [Block] registry of
    [src/components/SearchForm.js], followed by the properties of the
    specification that were checked against it.

    Modelling conventions.
    - JavaScript functions have identity: every function lives in a store
      (a list of function objects) and a function value is its index there.
      [create] allocates; nothing is ever removed or rewritten.
    - Exceptions, fuel exhaustion and behaviour that leaves the modelled
      fragment are explicit outcomes.  [Unmodelled] marks the places where
      the source would run code the embedding does not describe (a write to
      [__proto__], a Block method replaced by an error class and then
      called, a descriptor map that shadows [hasOwnProperty] with a
      function, the source text of a function used as a string).
    - Numbers are integer valued (magnitude below 10^21, where the decimal
      rendering is the JavaScript one).
    - Descriptor objects are plain objects held by value inside the
      descriptor map; the writes [get] performs on them are applied to the
      map entry. *)

From stdpp Require Import gmap strings list fin_maps pretty.
From Stdlib Require Import ZArith Lia.

Open Scope string_scope.
Set Warnings "-register-all".

(** ** Values *)

Definition addr := nat.

Inductive value :=
| VUndef
| VNull
| VBool (b : bool)
| VNum (z : Z)
| VStr (s : string)
| VFun (a : addr)
| VArr (items : list value)
| VObj (fields : list (string * value)).

Inductive jstype := TUndefined | TObject | TBoolean | TNumber | TString | TFunction.

Definition typeof (v : value) : jstype :=
  match v with
  | VUndef => TUndefined
  | VNull => TObject
  | VBool _ => TBoolean
  | VNum _ => TNumber
  | VStr _ => TString
  | VFun _ => TFunction
  | VArr _ => TObject
  | VObj _ => TObject
  end.

Definition truthy (v : value) : bool :=
  match v with
  | VUndef | VNull => false
  | VBool b => b
  | VNum z => negb (z =? 0)%Z
  | VStr s => negb (String.eqb s "")
  | VFun _ | VArr _ | VObj _ => true
  end.

(** [v === undefined || v === null] *)
Definition nullish (v : value) : bool :=
  match v with VUndef | VNull => true | _ => false end.

(** Own-property lookup in a plain object (first binding wins). *)
Fixpoint assoc {A} (k : string) (l : list (string * A)) : option A :=
  match l with
  | [] => None
  | (k', v) :: r => if String.eqb k k' then Some v else assoc k r
  end.

(** Property write on a plain object: replace in place, else append (the
    insertion order of a JavaScript object). *)
Fixpoint assoc_set {A} (k : string) (v : A) (l : list (string * A)) : list (string * A) :=
  match l with
  | [] => [(k, v)]
  | (k', v') :: r => if String.eqb k k' then (k, v) :: r else (k', v') :: assoc_set k v r
  end.

(** [o.k] on a plain object for the keys the source reads ([name],
    [parent], [defmessage], [abstract], [construct]); none of them is on
    [Object.prototype], so a missing key reads [undefined]. *)
Definition field (k : string) (o : list (string * value)) : value :=
  match assoc k o with Some v => v | None => VUndef end.

(** [a[i]] on an array. *)
Definition item (i : nat) (a : list value) : value :=
  match a !! i with Some v => v | None => VUndef end.

Definition join_with (sep : string) (parts : list string) : string :=
  match parts with
  | [] => ""
  | p :: r => fold_left (fun acc q => acc ++ sep ++ q) r p
  end.

(** The string conversion of ["" + v].  [None] where the result depends on
    code outside the model: a function's source text, or an object that
    overrides [toString] or [valueOf]. *)
Fixpoint to_str (v : value) : option string :=
  match v with
  | VUndef => Some "undefined"
  | VNull => Some "null"
  | VBool true => Some "true"
  | VBool false => Some "false"
  | VNum z => Some (pretty z)
  | VStr s => Some s
  | VFun _ => None
  | VArr items =>
      let elem x := if nullish x then Some "" else to_str x in
      join_with "," <$> mapM elem items
  | VObj fs =>
      match assoc "toString" fs, assoc "valueOf" fs with
      | None, None => Some "[object Object]"
      | _, _ => None
      end
  end.

(** ** Instances, exceptions and outcomes *)

(** An object made by [new C(...)]: its class and its own properties.
    The [stack] property written by [Error.captureStackTrace] is left out. *)
Record instance := Instance {
  i_class : addr;
  i_own : list (string * value)
}.

Inductive exn :=
| ExInst (i : instance)      (* a thrown error object *)
| ExTypeError.               (* a TypeError raised by the runtime *)

Inductive outcome (A : Type) :=
| Ret (a : A)
| Throw (e : exn)
| Timeout
| Unmodelled.
Arguments Ret {A} a.
Arguments Throw {A} e.
Arguments Timeout {A}.
Arguments Unmodelled {A}.

(** A user-written function used as a [construct] routine: it receives
    [this.parent] (bound to the instance), the instance and the arguments,
    and yields the updated instance or throws. *)
Definition routine :=
  (instance -> list value -> outcome instance) ->
  instance -> list value -> outcome instance.

(** ** Function objects and the store *)

Inductive builtin :=
| BlockGet | BlockRaise | BlockCreateAll | BlockGetBase | BlockCtor
| ObjectProto (name : string).

(** What [create] records on and closes over in a [CustomError]:
    [CustomError.prototype.name], the [abstract] flag, and the [ce] object
    with [parent], [defmessage] and [construct] ([None] is [null]). *)
Record custom := Custom {
  c_name : value;
  c_abstract : value;
  ce_parent : value;
  ce_defmessage : value;
  ce_construct : option addr
}.

Inductive fnobj :=
| FError                      (* the global Error *)
| FBuiltin (b : builtin)      (* Block's and Object.prototype's methods *)
| FUser (r : routine)         (* a caller's function; it has no [ce] *)
| FCustom (c : custom).       (* a class made by [create] *)

Definition store := list fnobj.

(** [f.ce] when [f] is a function that has one. *)
Definition ce_of (st : store) (v : value) : option custom :=
  match v with
  | VFun a => match st !! a with Some (FCustom c) => Some c | _ => None end
  | _ => None
  end.

(** Whether [Object.create(v.prototype)] works: [v] is a function with a
    [prototype] object.  [Some false] is the TypeError of line 73; [None]
    is an object value, whose [prototype] and [ce] fields are not
    modelled. *)
Definition has_prototype (st : store) (v : value) : option bool :=
  match v with
  | VFun a =>
      match st !! a with
      | Some FError | Some (FUser _) | Some (FCustom _) => Some true
      | Some (FBuiltin (ObjectProto _)) => Some false
      | Some (FBuiltin _) => Some true
      | None => Some false
      end
  | VObj _ => None
  | _ => Some false
  end.

(** ** Module-level functions and their addresses

    The functions that exist once the module is loaded, in allocation
    order: the global [Error], [Block] and its prototype methods, the
    methods every object inherits from [Object.prototype], the two
    [construct] routines written in the source, and the two classes the
    module makes with [create] ([module_init] below replays those calls). *)

Definition Error_addr : addr := 0.
Definition Block_addr : addr := 1.
Definition get_addr : addr := 2.
Definition raise_addr : addr := 3.
Definition createAll_addr : addr := 4.
Definition getBase_addr : addr := 5.

Definition object_proto_methods : list string :=
  [ "hasOwnProperty"; "isPrototypeOf"; "propertyIsEnumerable"; "toLocaleString";
    "toString"; "valueOf"; "__defineGetter__"; "__defineSetter__";
    "__lookupGetter__"; "__lookupSetter__" ].

Definition object_proto_base : addr := 6.
Definition abstract_routine_addr : addr := 16.
Definition notfound_routine_addr : addr := 17.
Definition AbstractError : addr := 18.
Definition ErrorNotFound : addr := 19.

(** [this.errorname = errorname; this.message = prefix + errorname + suffix] *)
Definition naming_routine (prefix suffix : string) : routine :=
  fun _ this args =>
    let errorname := item 0 args in
    match to_str errorname with
    | None => Unmodelled
    | Some s =>
        Ret (Instance (i_class this)
               (assoc_set "message" (VStr (prefix ++ s ++ suffix))
                  (assoc_set "errorname" errorname (i_own this))))
    end.

Definition abstract_routine : routine := naming_routine "Error " " is abstract".
Definition notfound_routine : routine := naming_routine "Error " " is not found in block".

Definition pre_store : store :=
  ([FError; FBuiltin BlockCtor; FBuiltin BlockGet; FBuiltin BlockRaise;
    FBuiltin BlockCreateAll; FBuiltin BlockGetBase]
   ++ map (fun s => FBuiltin (ObjectProto s)) object_proto_methods
   ++ [FUser abstract_routine; FUser notfound_routine])%list.

(** ** The factory *)

(** The argument unpacking of lines 43-45: a first argument of type
    [object] is a dictionary of the five arguments (and is unpacked again
    if its own [name] is one).  [None] is the TypeError of reading
    [null.name]. *)
Fixpoint positional (name parent defmessage abstract construct : value)
  : option (value * value * value * value * value) :=
  match name with
  | VNull => None
  | VArr _ => Some (VUndef, VUndef, VUndef, VUndef, VUndef)
  | VObj fs =>
      (fix find (l : list (string * value)) :=
         match l with
         | [] => Some (VUndef, field "parent" fs, field "defmessage" fs,
                       field "abstract" fs, field "construct" fs)
         | (k, v) :: r =>
             if String.eqb "name" k
             then positional v (field "parent" fs) (field "defmessage" fs)
                    (field "abstract" fs) (field "construct" fs)
             else find r
         end) fs
  | _ => Some (name, parent, defmessage, abstract, construct)
  end.

(** Lines 46-58: the effective parent, default message and routine. *)
Definition effective_parent (parent : value) : value :=
  if truthy parent then parent else VFun Error_addr.

Definition effective_defmessage (st : store) (parent defmessage : value) : value :=
  if nullish defmessage then
    match ce_of st parent with
    | Some c => ce_defmessage c
    | None => defmessage
    end
  else defmessage.

Definition effective_construct (st : store) (parent construct : value) : option addr :=
  match construct with
  | VFun a => Some a
  | _ => match ce_of st parent with
         | Some c => ce_construct c
         | None => None
         end
  end.

(** A new function object gets the next free address. *)
Definition alloc (st : store) (f : fnobj) : store := (st ++ [f])%list.

(** Lines 46-87 for a first argument that is not a dictionary. *)
Definition create_class (st : store) (name parent defmessage abstract construct : value)
  : outcome addr * store :=
  let parent := effective_parent parent in
  let defmessage := effective_defmessage st parent defmessage in
  let construct := effective_construct st parent construct in
  match has_prototype st parent with
  | None => (Unmodelled, st)
  | Some false => (Throw ExTypeError, st)
  | Some true =>
      (Ret (length st),
       alloc st (FCustom (Custom name abstract parent defmessage construct)))
  end.

Definition create (st : store) (name parent defmessage abstract construct : value)
  : outcome addr * store :=
  match positional name parent defmessage abstract construct with
  | None => (Throw ExTypeError, st)
  | Some (n, p, d, a, c) => create_class st n p d a c
  end.

(** [helpers.inherit], called as [this.inherit(...)] on the class [this].
    A dictionary gets its [parent] overwritten before it is handed to
    [create]; an array is an object too, so it receives the [parent]
    property and [create] then reads its missing [name] as [undefined]. *)
Definition inherit (st : store) (this : addr) (name defmessage abstract construct : value)
  : outcome addr * store :=
  match name with
  | VObj fs => create st (VObj (assoc_set "parent" (VFun this) fs)) VUndef VUndef VUndef VUndef
  | VArr _ => create_class st VUndef (VFun this) VUndef VUndef VUndef
  | VNull => (Throw ExTypeError, st)
  | _ => create st name (VFun this) defmessage abstract construct
  end.

(** The store after the module body has run. *)
Definition AbstractError_class : custom :=
  Custom (VStr "customErrors.AbstractError") VUndef (VFun Error_addr)
    VUndef (Some abstract_routine_addr).

Definition ErrorNotFound_class : custom :=
  Custom (VStr "customErrors.ErrorNotFound") VUndef (VFun Error_addr)
    VUndef (Some notfound_routine_addr).

Definition init_store : store :=
  alloc (alloc pre_store (FCustom AbstractError_class)) (FCustom ErrorNotFound_class).


(** ** Instantiation *)

(** [this.constructor.ce.parent.ce.construct] of [helpers.parent]: the
    routine recorded on the parent of the instance's class. *)
Definition parent_construct (st : store) (this : instance) : option addr :=
  match ce_of st (VFun (i_class this)) with
  | Some c =>
      match ce_of st (ce_parent c) with
      | Some pc => ce_construct pc
      | None => None
      end
  | None => None
  end.

Definition lift_throw (o : outcome instance) : outcome instance :=
  match o with
  | Ret e => Throw (ExInst e)
  | other => other
  end.

(** Lines 68-70. *)
Definition store_message (this : instance) (args : list value) : instance :=
  let message := item 0 args in
  if nullish message then this
  else Instance (i_class this) (assoc_set "message" message (i_own this)).

(** Calling the function at [f] with the given [this] and arguments.  For
    a [CustomError] this is the body of lines 59-72; for a caller's
    routine, [this.parent] is [helpers.parent] bound to the instance. *)
Fixpoint call_fn (fuel : nat) (st : store) (f : addr) (this : instance) (args : list value)
  : outcome instance :=
  match fuel with
  | 0 => Timeout
  | S n =>
      match st !! f with
      | None => Throw ExTypeError
      | Some FError => Ret this
      | Some (FBuiltin _) => Unmodelled
      | Some (FUser r) =>
          r (fun this' args' =>
               match assoc "constructor" (i_own this') with
               | Some _ => Unmodelled
               | None =>
                   match parent_construct st this' with
                   | Some k => call_fn n st k this' args'
                   | None => Ret this'
                   end
               end) this args
      | Some (FCustom c) =>
          if truthy (c_abstract c) then
            lift_throw (call_fn n st AbstractError (Instance AbstractError []) [c_name c])
          else
            match ce_construct c with
            | Some k => call_fn n st k this args
            | None => Ret (store_message this args)
            end
      end
  end.

(** [new C(args)] for a class made by [create]. *)
Definition construct (fuel : nat) (st : store) (cls : addr) (args : list value)
  : outcome instance :=
  match st !! cls with
  | Some (FCustom _) => call_fn fuel st cls (Instance cls []) args
  | Some FError =>
      match item 0 args with
      | VUndef => Ret (Instance cls [])
      | m => match to_str m with
             | Some s => Ret (Instance cls [("message", VStr s)])
             | None => Unmodelled
             end
      end
  | Some (FUser _) => Unmodelled
  | Some (FBuiltin (ObjectProto _)) => Throw ExTypeError
  | Some (FBuiltin _) => Unmodelled
  | None => Throw ExTypeError
  end.

(** Property read on an instance, through the prototype chain that
    [create] builds: own properties, then for each class up the chain the
    [name], [message] and [constructor] written on its prototype, then
    [Error.prototype].  The method [parent] that every prototype also
    carries is not a value of the model; [call_fn] hands it to routines. *)
Fixpoint proto_get (depth : nat) (st : store) (cls : value) (k : string) : value :=
  match depth with
  | 0 => VUndef
  | S n =>
      match cls with
      | VFun a =>
          match st !! a with
          | Some (FCustom c) =>
              if String.eqb k "name" then c_name c
              else if String.eqb k "message" then ce_defmessage c
              else if String.eqb k "constructor" then VFun a
              else proto_get n st (ce_parent c) k
          | Some FError =>
              if String.eqb k "name" then VStr "Error"
              else if String.eqb k "message" then VStr ""
              else if String.eqb k "constructor" then VFun a
              else VUndef
          | _ => VUndef
          end
      | _ => VUndef
      end
  end.

Definition instance_get (st : store) (i : instance) (k : string) : value :=
  match assoc k (i_own i) with
  | Some v => v
  | None => proto_get (length st) st (VFun (i_class i)) k
  end.


(** ** Blocks *)

(** [this.p] as the constructor builds it. *)
Record params := Params {
  errors : list (string * value);
  namespace : value;
  prefix : string;
  base : value;
  lazy : bool
}.

(** The [p] property holds the record above until a descriptor or a base
    type named ["p"] is resolved and stored as [this["p"]]. *)
Inductive pslot :=
| PRec (r : params)
| PVal (a : addr).

(** A Block object: [p], [created], and the own properties that [get] and
    [getBase] add, which are the cache of resolved error classes. *)
Record block := Block {
  p : pslot;
  created : value;
  own : gmap string addr
}.

Record state := State {
  fns : store;
  blk : block
}.

Definition index_of (k : string) (l : list string) : option nat :=
  fst <$> list_find (String.eqb k) l.

(** Function-valued properties found on [Block.prototype] and
    [Object.prototype]. *)
Definition proto_fn (name : string) : option addr :=
  if String.eqb name "constructor" then Some Block_addr
  else if String.eqb name "get" then Some get_addr
  else if String.eqb name "raise" then Some raise_addr
  else if String.eqb name "createAll" then Some createAll_addr
  else if String.eqb name "getBase" then Some getBase_addr
  else (fun i => object_proto_base + i) <$> index_of name object_proto_methods.

(** [this[name]] when [typeof this[name] === "function"] (line 193). *)
Definition this_fn (b : block) (name : string) : option addr :=
  if String.eqb name "p" then
    match p b with PVal a => Some a | PRec _ => None end
  else if String.eqb name "created" then
    match created b with VFun a => Some a | _ => None end
  else if String.eqb name "__proto__" then None
  else match own b !! name with
       | Some a => Some a
       | None => proto_fn name
       end.

(** [this[name] = f] for a function [f]; [None] for [__proto__], which
    would replace the Block's prototype. *)
Definition this_set (b : block) (name : string) (a : addr) : option block :=
  if String.eqb name "p" then Some (Block (PVal a) (created b) (own b))
  else if String.eqb name "created" then Some (Block (p b) (VFun a) (own b))
  else if String.eqb name "__proto__" then None
  else Some (Block (p b) (created b) (<[name := a]> (own b))).

(** [o.hasOwnProperty(k)] on a plain object [o]: an own property called
    [hasOwnProperty] shadows the inherited method. *)
Inductive own_check := Own (b : bool) | OwnNotCallable | OwnUnmodelled.

Definition has_own (o : list (string * value)) (k : string) : own_check :=
  match assoc "hasOwnProperty" o with
  | None => Own (bool_decide (is_Some (assoc k o)))
  | Some (VFun _) => OwnUnmodelled
  | Some _ => OwnNotCallable
  end.

(** [throw new Block.ErrorNotFound(arg)] *)
Definition throw_not_found {A} (fuel : nat) (arg : string) (s : state) : outcome A * state :=
  match construct fuel (fns s) ErrorNotFound [VStr arg] with
  | Ret e => (Throw (ExInst e), s)
  | Throw e => (Throw e, s)
  | Timeout => (Timeout, s)
  | Unmodelled => (Unmodelled, s)
  end.

(** [Block.prototype.getBase] (lines 281-291).  Once [this.p] is an error
    class, [this.p.base] is a property of that function object, which the
    model does not track. *)
Definition getBase (s : state) : outcome value * state :=
  match p (blk s) with
  | PVal _ => (Unmodelled, s)
  | PRec r =>
      match base r with
      | VStr name =>
          match create (fns s) (VStr (prefix r ++ name)) (VFun Error_addr)
                  (VStr "") (VBool true) VUndef with
          | (Ret a, st) =>
              match this_set (blk s) name a with
              | None => (Unmodelled, State st (blk s))
              | Some b =>
                  let b' :=
                    match p b with
                    | PRec r' =>
                        Block (PRec (Params (errors r') (namespace r') (prefix r')
                                       (VFun a) (lazy r'))) (created b) (own b)
                    | PVal _ => b
                    end in
                  (Ret (VFun a), State st b')
              end
          | (Throw e, st) => (Throw e, State st (blk s))
          | (Timeout, st) => (Timeout, State st (blk s))
          | (Unmodelled, st) => (Unmodelled, State st (blk s))
          end
      | other => (Ret other, s)
      end
  end.

(** Lines 206-221: the descriptor [errors[name]] brought to a [params]
    object and a parent reference.  [shared] tells that [params] is the
    caller's own descriptor object, so that writes to it are writes to the
    descriptor map. *)
Inductive descriptor :=
| Desc (fields : list (string * value)) (shared : bool) (ptr : value)
| DescTypeError (fields : list (string * value)) (shared : bool)
| DescUnmodelled.

Definition normalize (full : string) (ptr : value) : descriptor :=
  match ptr with
  | VNull => DescTypeError [] false
  | VArr items =>
      Desc [("name", VStr full); ("defmessage", item 1 items); ("abstract", item 2 items)]
        false (item 0 items)
  | VObj fs =>
      let fs' := assoc_set "name" (VStr full) fs in
      match has_own fs' "parent" with
      | Own true => Desc fs' true (field "parent" fs')
      | Own false => Desc fs' true (VBool true)
      | OwnNotCallable => DescTypeError fs' true
      | OwnUnmodelled => DescUnmodelled
      end
  | other => Desc [("name", VStr full)] false other
  end.

(** A write to a shared descriptor object, seen through [this.p.errors]. *)
Definition write_back (name : string) (shared : bool) (fs : list (string * value))
    (s : state) : state :=
  if shared then
    match p (blk s) with
    | PRec r =>
        State (fns s)
          (Block (PRec (Params (assoc_set name (VObj fs) (errors r)) (namespace r)
                          (prefix r) (base r) (lazy r)))
             (created (blk s)) (own (blk s)))
    | PVal _ => s
    end
  else s.

(** Lines 235-236, after [params.parent] has been assigned. *)
Definition install (name : string) (shared : bool) (fs : list (string * value))
    (parent : value) (s : state) : outcome value * state :=
  let fs' := assoc_set "parent" parent fs in
  let s1 := write_back name shared fs' s in
  match create (fns s1) (VObj fs') VUndef VUndef VUndef VUndef with
  | (Ret a, st) =>
      match this_set (blk s1) name a with
      | Some b => (Ret (VFun a), State st b)
      | None => (Unmodelled, State st (blk s1))
      end
  | (Throw e, st) => (Throw e, State st (blk s1))
  | (Timeout, st) => (Timeout, State st (blk s1))
  | (Unmodelled, st) => (Unmodelled, State st (blk s1))
  end.

(** [this.m()] runs the prototype's method only while [this.m] still is
    that method. *)
Definition dispatches (b : block) (m : string) (a : addr) : bool :=
  bool_decide (this_fn b m = Some a).

(** [Block.prototype.get] (lines 188-237). *)
Fixpoint get (fuel : nat) (name : string) (s : state) : outcome value * state :=
  match fuel with
  | 0 => (Timeout, s)
  | S n =>
      match this_fn (blk s) name with
      | Some a => (Ret (VFun a), s)
      | None =>
          match p (blk s) with
          | PVal _ => (Throw ExTypeError, s)
          | PRec r =>
              let full := prefix r ++ name in
              match has_own (errors r) name with
              | OwnUnmodelled => (Unmodelled, s)
              | OwnNotCallable => (Throw ExTypeError, s)
              | Own false =>
                  match base r with
                  | VStr b =>
                      if String.eqb b name then
                        if dispatches (blk s) "getBase" getBase_addr then getBase s
                        else (Unmodelled, s)
                      else throw_not_found n full s
                  | _ => throw_not_found n full s
                  end
              | Own true =>
                  match normalize full (field name (errors r)) with
                  | DescTypeError fs shared =>
                      (Throw ExTypeError, write_back name shared fs s)
                  | DescUnmodelled => (Unmodelled, s)
                  | Desc fs shared ptr =>
                      let s0 := write_back name shared fs s in
                      match ptr with
                      | VFun a =>
                          match this_set (blk s0) name a with
                          | Some b => (Ret (VFun a), State (fns s0) b)
                          | None => (Unmodelled, s0)
                          end
                      | VBool true =>
                          if dispatches (blk s0) "getBase" getBase_addr then
                            match getBase s0 with
                            | (Ret parent, s1) => install name shared fs parent s1
                            | other => other
                            end
                          else (Unmodelled, s0)
                      | VBool false => install name shared fs VNull s0
                      | VStr ref =>
                          if dispatches (blk s0) "get" get_addr then
                            match get n ref s0 with
                            | (Ret parent, s1) => install name shared fs parent s1
                            | other => other
                            end
                          else (Unmodelled, s0)
                      | _ =>
                          throw_not_found n
                            ("Error " ++ full ++ " is not found in the block") s0
                      end
                  end
              end
          end
      end
  end.

(** The loop of lines 266-270 over the keys of the descriptor map. *)
Fixpoint get_each (fuel : nat) (names : list string) (s : state) : outcome unit * state :=
  match names with
  | [] => (Ret (), s)
  | name :: rest =>
      if dispatches (blk s) "get" get_addr then
        match get fuel name s with
        | (Ret _, s1) => get_each fuel rest s1
        | (Throw e, s1) => (Throw e, s1)
        | (Timeout, s1) => (Timeout, s1)
        | (Unmodelled, s1) => (Unmodelled, s1)
        end
      else (Unmodelled, s)
  end.

Definition set_created (s : state) : state :=
  State (fns s) (Block (p (blk s)) (VBool true) (own (blk s))).

(** [Block.prototype.createAll] (lines 260-272).  [for-in] over the
    [undefined] that [this.p.errors] reads once [p] is overwritten runs no
    iteration. *)
Definition createAll (fuel : nat) (s : state) : outcome unit * state :=
  if truthy (created (blk s)) then (Ret (), s)
  else
    match p (blk s) with
    | PVal _ => (Ret (), set_created s)
    | PRec r =>
        match errors r with
        | [] => (Ret (), set_created s)
        | _ :: _ =>
            match has_own (errors r) "hasOwnProperty" with
            | Own true => (Throw ExTypeError, s)
            | OwnNotCallable => (Throw ExTypeError, s)
            | OwnUnmodelled => (Unmodelled, s)
            | Own false =>
                match get_each fuel (map fst (errors r)) s with
                | (Ret _, s1) => (Ret (), set_created s1)
                | other => other
                end
            end
        end
    end.

(** [Block.prototype.raise] (lines 248-251). *)
Definition raise (fuel : nat) (name : string) (message : value) (s : state)
  : outcome unit * state :=
  if dispatches (blk s) "get" get_addr then
    match get fuel name s with
    | (Ret (VFun cls), s1) =>
        match construct fuel (fns s1) cls [message] with
        | Ret e => (Throw (ExInst e), s1)
        | Throw e => (Throw e, s1)
        | Timeout => (Timeout, s1)
        | Unmodelled => (Unmodelled, s1)
        end
    | (Ret _, s1) => (Throw ExTypeError, s1)
    | (Throw e, s1) => (Throw e, s1)
    | (Timeout, s1) => (Timeout, s1)
    | (Unmodelled, s1) => (Unmodelled, s1)
    end
  else (Unmodelled, s).

(** Lines 159-165. *)
Definition normalize_base (base : value) : option value :=
  match base with
  | VUndef | VBool true | VNull => Some (VStr "Base")
  | VBool false => Some (VFun Error_addr)
  | VFun a => Some (VFun a)
  | other => VStr <$> to_str other
  end.

(** Line 169. *)
Definition make_prefix (namespace : value) : option string :=
  if truthy namespace then (fun s => s ++ ".") <$> to_str namespace else Some "".

(** [new Block(errors, namespace, base, lazy)] (lines 158-177), run in a
    store [st].  The list [errors] gives the own properties of the
    descriptor map in [for-in] order.  When the string conversion of
    [base] or [namespace] is outside the model, the outcome says so and
    the state only records the arguments. *)
Definition new_Block (fuel : nat) (st : store) (errors : list (string * value))
    (namespace base lazy : value) : outcome unit * state :=
  match normalize_base base, make_prefix namespace with
  | Some b, Some pre =>
      let s := State st (Block (PRec (Params errors namespace pre b (truthy lazy)))
                           (VBool false) ∅) in
      if truthy lazy then (Ret (), s) else createAll fuel s
  | _, _ =>
      (Unmodelled,
       State st (Block (PRec (Params errors namespace "" base (truthy lazy)))
                   (VBool false) ∅))
  end.

(** ** Chains of classes

    A descriptor as a caller writes it, in either calling convention of
    [inherit]: positional, or a dictionary. *)
Inductive descr :=
| Positional (name : string) (defmessage abstract construct : value)
| Dictionary (fs : list (string * value)).

Definition explicit_defmessage (d : descr) : value :=
  match d with
  | Positional _ dm _ _ => dm
  | Dictionary fs => field "defmessage" fs
  end.

Definition explicit_construct (d : descr) : value :=
  match d with
  | Positional _ _ _ co => co
  | Dictionary fs => field "construct" fs
  end.

Definition explicit_abstract (d : descr) : value :=
  match d with
  | Positional _ _ ab _ => ab
  | Dictionary fs => field "abstract" fs
  end.

(** A dictionary whose [name] is itself a dictionary is unpacked a second
    time by [create]; the descriptors of a chain are the ones whose [name]
    is not. *)
Definition plain (d : descr) : bool :=
  match d with
  | Positional _ _ _ _ => true
  | Dictionary fs =>
      match typeof (field "name" fs) with TObject => false | _ => true end
  end.

Definition inherit_from (st : store) (parent : addr) (d : descr) : outcome addr * store :=
  match d with
  | Positional n dm ab co => inherit st parent (VStr n) dm ab co
  | Dictionary fs => inherit st parent (VObj fs) VUndef VUndef VUndef
  end.

(** [root.inherit(d1).inherit(d2)...]: each descriptor makes a child of
    the class made by the one before it. *)
Fixpoint derive (st : store) (root : addr) (ds : list descr) : outcome addr * store :=
  match ds with
  | [] => (Ret root, st)
  | d :: rest =>
      match inherit_from st root d with
      | (Ret a, st1) => derive st1 a rest
      | other => other
      end
  end.

(** The specification's reading of the same chain: going from a type up
    through its ancestors, the first descriptor that defines a default
    message (a value other than [null] and [undefined]), respectively a
    routine (a function); at the top, what the root class has recorded. *)
Definition recorded_message (root : option custom) : option value :=
  match root with
  | Some c => if nullish (ce_defmessage c) then None else Some (ce_defmessage c)
  | None => None
  end.

Definition recorded_construct (root : option custom) : option addr :=
  match root with
  | Some c => ce_construct c
  | None => None
  end.

Fixpoint nearest_message (upwards : list descr) (root : option custom) : option value :=
  match upwards with
  | [] => recorded_message root
  | d :: ancestors =>
      if nullish (explicit_defmessage d) then nearest_message ancestors root
      else Some (explicit_defmessage d)
  end.

Fixpoint nearest_construct (upwards : list descr) (root : option custom) : option addr :=
  match upwards with
  | [] => recorded_construct root
  | d :: ancestors =>
      match explicit_construct d with
      | VFun a => Some a
      | _ => nearest_construct ancestors root
      end
  end.

(** An effective default message agrees with the nearest definition: it is
    that value, or nothing is defined and it is [null] or [undefined]. *)
Definition message_is (effective : value) (defined : option value) : Prop :=
  match defined with
  | Some v => effective = v
  | None => nullish effective = true
  end.

(** Every function of [st] is still there, unchanged, in [st']. *)
Definition frozen (st st' : store) : Prop :=
  forall a f, st !! a = Some f -> st' !! a = Some f.

(** ** Example Blocks *)

(** [{NotFound: [true, "missing"], Invalid: ["NotFound", "bad input"]}] *)
Definition api_errors : list (string * value) :=
  [("NotFound", VArr [VBool true; VStr "missing"]);
   ("Invalid", VArr [VStr "NotFound"; VStr "bad input"])].

(** A lazy Block over [errors] as the constructor leaves it. *)
Definition lazy_block (st : store) (errors : list (string * value))
    (namespace : string) (base : value) : state :=
  State st (Block (PRec (Params errors (VStr namespace) (namespace ++ ".") base true))
              (VBool false) ∅).

(** [new Block(api_errors, "api", "Base", true)] in a freshly loaded module. *)
Definition api_block : state := lazy_block init_store api_errors "api" (VStr "Base").

(** The same Block after [get("Invalid")]. *)
Definition api_resolved : state := (get 5 "Invalid" api_block).2.

(** A Block that declares an error called [get]. *)
Definition shadow_block : state :=
  lazy_block init_store [("get", VBool true)] "ns" (VStr "Base").

(** The prototype methods of a Block. *)
Definition block_methods : list (string * addr) :=
  [("get", get_addr); ("raise", raise_addr);
   ("createAll", createAll_addr); ("getBase", getBase_addr)].

(** The error object that [new Block.ErrorNotFound(arg)] builds. *)
Definition not_found_error (arg : string) : instance :=
  Instance ErrorNotFound
    [("errorname", VStr arg);
     ("message", VStr ("Error " ++ arg ++ " is not found in block"))].

(** The error object that [new AbstractError(name)] builds for a class
    called [name]. *)
Definition abstract_error (name : value) (shown : string) : instance :=
  Instance AbstractError
    [("errorname", name);
     ("message", VStr ("Error " ++ shown ++ " is abstract"))].

(** A chain of three descriptors: only the eldest defines a default
    message and a routine. *)
Definition sample_chain : list descr :=
  [Positional "app.Failure" (VStr "failed") (VBool false) (VFun abstract_routine_addr);
   Dictionary [("name", VStr "app.IOFailure"); ("defmessage", VNull)];
   Positional "app.ReadFailure" VUndef VUndef VUndef].

(** The store after [create("app.Base", undefined, "", true, f)], where
    the routine [f] is the one at [notfound_routine_addr]. *)
Definition abstract_sample : store :=
  (create init_store (VStr "app.Base") VUndef (VStr "") (VBool true)
     (VFun notfound_routine_addr)).2.

(** The three classes of the example scenario, at the addresses they get
    in a freshly loaded module. *)
Definition api_Base : custom :=
  Custom (VStr "api.Base") (VBool true) (VFun Error_addr) (VStr "") None.
Definition api_NotFound : custom :=
  Custom (VStr "api.NotFound") VUndef (VFun 20) (VStr "missing") None.
Definition api_Invalid : custom :=
  Custom (VStr "api.Invalid") VUndef (VFun 21) (VStr "bad input") None.

(** The abstract base class that [getBase] makes for a Block with prefix
    [pre] and base name [name]. *)
Definition base_class (pre name : string) : custom :=
  Custom (VStr (pre ++ name)) (VBool true) (VFun Error_addr) (VStr "") None.

(** The property names of a Block that are not cache entries. *)
Definition reserved (name : string) : bool :=
  String.eqb name "p" || String.eqb name "created" || String.eqb name "__proto__".

(** A Block whose descriptors use a function, a dictionary without
    [parent], an empty array, [false], and a name. *)
Definition alias_errors : list (string * value) :=
  [("Alias", VFun AbstractError);
   ("Loose", VObj [("defmessage", VStr "loose")]);
   ("Empty", VArr []);
   ("Rootless", VBool false);
   ("Child", VStr "Rootless")].

Definition alias_block : state := lazy_block init_store alias_errors "ns" (VStr "Base").

(** The class that [create(params)] makes at the end of [get] from the
    normalized descriptor [fs] and the resolved parent. *)
Definition resolved_class (st : store) (full : string) (fs : list (string * value))
    (parent : value) : custom :=
  Custom (VStr full) (field "abstract" fs) (effective_parent parent)
    (effective_defmessage st (effective_parent parent) (field "defmessage" fs))
    (effective_construct st (effective_parent parent) (field "construct" fs)).

Definition alias_params : params :=
  Params alias_errors (VStr "ns") "ns." (VStr "Base") true.

(** Whether [name] is the base-type name the Block still holds as a
    string, that is, the property [getBase] will write on first use. *)
Definition base_name_is (b : block) (name : string) : bool :=
  match p b with
  | PRec r => match base r with VStr x => String.eqb x name | _ => false end
  | PVal _ => false
  end.

(** A Block that declares a descriptor under its own base-type name. *)
Definition collision_block : state :=
  lazy_block init_store [("Base", VBool false); ("X", VBool true)] "ns" (VStr "Base").

(** The example descriptors with the child declared before its parent. *)
Definition reversed_block : state :=
  lazy_block init_store
    [("Invalid", VArr [VStr "NotFound"; VStr "bad input"]);
     ("NotFound", VArr [VBool true; VStr "missing"])] "api" (VStr "Base").

(** The invariant of a cache entry across a run from [s] to [s']: if [k]
    is not the pending base-type name, it still is not, and whatever
    function the Block has under [k] it keeps. *)
Definition keeps (k : string) (s s' : state) : Prop :=
  base_name_is (blk s) k = false ->
  base_name_is (blk s') k = false /\
  forall a, this_fn (blk s) k = Some a -> this_fn (blk s') k = Some a.

(** The example Block after [createAll()]. *)
Definition api_created : state := (createAll 5 api_block).2.

(** A Block that declares an error called [created]. *)
Definition created_block : state :=
  lazy_block init_store [("created", VBool true)] "ns" (VStr "Base").

(** ** Further notions used by the properties below *)

(** [function () { this.parent.apply(this, arguments); }]: a routine that
    only chains to the parent's. *)
Definition chaining_routine : routine :=
  fun parent this args => parent this args.

(** A module that defines the chaining routine (address 20), a class
    [app.A] with the routine of the built-in ErrorNotFound (21), a class
    [app.B] under it whose own routine is the chaining one (22), and a
    class [app.C] under [app.B] with no routine of its own (23). *)
Definition chain_store : store :=
  let st0 := alloc init_store (FUser chaining_routine) in
  let st1 := (create st0 (VStr "app.A") VUndef (VStr "a") VUndef
                (VFun notfound_routine_addr)).2 in
  let st2 := (inherit st1 21 (VStr "app.B") VUndef VUndef (VFun 20)).2 in
  (inherit st2 22 (VStr "app.C") VUndef VUndef VUndef).2.

(** A Block that declares an error called [p]. *)
Definition p_block : state :=
  lazy_block init_store [("p", VBool false); ("Other", VBool false)] "ns" (VStr "Base").

(** A Block whose two descriptors name each other as parent. *)
Definition cycle_block : state :=
  lazy_block init_store [("A", VStr "B"); ("B", VArr [VStr "A"; VStr "b"])] "ns"
    (VStr "Base").

(** The descriptor of [x] is a string, or an array whose first element is
    a string, that names [y] as parent. *)
Definition refers (r : params) (x y : string) : Prop :=
  exists fs, normalize (prefix r ++ x) (field x (errors r)) = Desc fs false (VStr y).


(** * Properties *)

#[local] Arguments String.eqb : simpl never.
#[local] Arguments String.append : simpl never.
#[local] Arguments ce_of : simpl never.
#[local] Arguments to_str : simpl never.

(** The two classes of the module are made by [create] at the addresses
    the model fixes for them. *)
Example module_init :
  create pre_store
    (VObj [("name", VStr "customErrors.AbstractError");
           ("construct", VFun abstract_routine_addr)]) VUndef VUndef VUndef VUndef
  = (Ret AbstractError, alloc pre_store (FCustom AbstractError_class))
  /\ create (alloc pre_store (FCustom AbstractError_class))
    (VObj [("name", VStr "customErrors.ErrorNotFound");
           ("construct", VFun notfound_routine_addr)]) VUndef VUndef VUndef VUndef
  = (Ret ErrorNotFound, init_store).
Proof. split; reflexivity. Qed.

(** ** The factory *)

Lemma frozen_refl st : frozen st st.
Proof. intros a f H; exact H. Qed.

Lemma frozen_trans st1 st2 st3 : frozen st1 st2 -> frozen st2 st3 -> frozen st1 st3.
Proof. intros H12 H23 a f H. apply H23, H12, H. Qed.

Lemma frozen_alloc st f : frozen st (alloc st f).
Proof. intros a g H. unfold alloc. by apply lookup_app_l_Some. Qed.

Lemma lookup_alloc st f : alloc st f !! length st = Some f.
Proof. unfold alloc. apply list_lookup_middle. reflexivity. Qed.

(** What a successful [create_class] leaves behind. *)
Lemma create_class_ret st n p d ab co a st' :
  create_class st n p d ab co = (Ret a, st') ->
  a = length st /\
  st' = alloc st (FCustom (Custom n ab (effective_parent p)
                       (effective_defmessage st (effective_parent p) d)
                       (effective_construct st (effective_parent p) co))).
Proof.
  unfold create_class.
  destruct (has_prototype st (effective_parent p)) as [[|]|]; intros H;
    inversion H; subst; auto.
Qed.

Lemma create_class_frozen st n p d ab co o st' :
  create_class st n p d ab co = (o, st') -> frozen st st'.
Proof.
  unfold create_class.
  destruct (has_prototype st (effective_parent p)) as [[|]|]; intros H;
    inversion H; subst; auto using frozen_refl, frozen_alloc.
Qed.

Lemma create_frozen st n p d ab co o st' :
  create st n p d ab co = (o, st') -> frozen st st'.
Proof.
  unfold create.
  destruct (positional n p d ab co) as [[[[[n' p'] d'] ab'] co']|].
  - apply create_class_frozen.
  - intros H; inversion H; subst; apply frozen_refl.
Qed.

Lemma assoc_set_eq {A} k (v : A) l : assoc k (assoc_set k v l) = Some v.
Proof.
  induction l as [|[k' v'] l IH]; simpl.
  - by rewrite String.eqb_refl.
  - destruct (String.eqb k k') eqn:E; simpl; rewrite ?String.eqb_refl, ?E; auto.
Qed.

Lemma assoc_set_ne {A} k k' (v : A) l :
  k <> k' -> assoc k' (assoc_set k v l) = assoc k' l.
Proof.
  intros Hne. induction l as [|[k0 v0] l IH]; simpl.
  - destruct (String.eqb k' k) eqn:E; auto. apply String.eqb_eq in E. congruence.
  - destruct (String.eqb k k0) eqn:E; simpl.
    + apply String.eqb_eq in E; subst k0.
      destruct (String.eqb k' k) eqn:E'; auto. apply String.eqb_eq in E'. congruence.
    + destruct (String.eqb k' k0); auto.
Qed.

Lemma field_set_eq k v l : field k (assoc_set k v l) = v.
Proof. unfold field. by rewrite assoc_set_eq. Qed.

Lemma field_set_ne k k' v l : k <> k' -> field k' (assoc_set k v l) = field k' l.
Proof. intros H. unfold field. by rewrite assoc_set_ne. Qed.

(** The unpacking of a dictionary whose [name] is not a dictionary. *)
Lemma positional_plain fs p d ab co :
  typeof (field "name" fs) <> TObject ->
  positional (VObj fs) p d ab co =
  Some (field "name" fs, field "parent" fs, field "defmessage" fs,
        field "abstract" fs, field "construct" fs).
Proof.
  simpl. generalize (field "parent" fs) (field "defmessage" fs)
    (field "abstract" fs) (field "construct" fs). intros P D A C.
  unfold field at 1 2. induction fs as [|[k v] fs IH]; simpl; intros Hty.
  - reflexivity.
  - destruct (String.eqb "name" k) eqn:E.
    + destruct v; simpl in *; try reflexivity; congruence.
    + apply IH. exact Hty.
Qed.

(** Both calling conventions of [inherit] come down to one call of
    [create_class] with the descriptor's explicit values. *)
Lemma inherit_from_plain st parent d :
  plain d = true ->
  exists n,
    inherit_from st parent d =
    create_class st n (VFun parent) (explicit_defmessage d) (explicit_abstract d)
      (explicit_construct d).
Proof.
  destruct d as [n dm ab co | fs]; simpl; intros Hp.
  - exists (VStr n). reflexivity.
  - exists (field "name" fs).
    unfold create. rewrite positional_plain.
    + rewrite field_set_eq, !field_set_ne by discriminate. reflexivity.
    + rewrite field_set_ne by discriminate.
      destruct (typeof (field "name" fs)); congruence.
Qed.

Lemma nearest_message_snoc l d root c1 :
  recorded_message (Some c1) = nearest_message [d] root ->
  nearest_message (l ++ [d]) root = nearest_message l (Some c1).
Proof.
  intros H. induction l as [|x l IH]; simpl.
  - simpl in H. symmetry. exact H.
  - destruct (nullish (explicit_defmessage x)); auto.
Qed.

Lemma nearest_construct_snoc l d root c1 :
  recorded_construct (Some c1) = nearest_construct [d] root ->
  nearest_construct (l ++ [d]) root = nearest_construct l (Some c1).
Proof.
  intros H. induction l as [|x l IH]; simpl.
  - simpl in H. symmetry. exact H.
  - destruct (explicit_construct x); auto.
Qed.

(** One step of a chain: the child records the nearest definitions seen
    from its own descriptor. *)
Lemma inherit_from_step st parent d :
  plain d = true ->
  has_prototype st (VFun parent) = Some true ->
  exists c,
    inherit_from st parent d = (Ret (length st), alloc st (FCustom c)) /\
    c_abstract c = explicit_abstract d /\
    recorded_message (Some c) = nearest_message [d] (ce_of st (VFun parent)) /\
    recorded_construct (Some c) = nearest_construct [d] (ce_of st (VFun parent)).
Proof.
  intros Hp Hproto. destruct (inherit_from_plain st parent d Hp) as (n & ->).
  unfold create_class. change (effective_parent (VFun parent)) with (VFun parent).
  rewrite Hproto. eexists. split; [reflexivity|]. simpl. split; [reflexivity|]. split.
  - unfold effective_defmessage.
    destruct (nullish (explicit_defmessage d)) eqn:E; [|by rewrite E].
    destruct (ce_of st (VFun parent)) as [pc|]; simpl; [reflexivity|by rewrite E].
  - unfold effective_construct. destruct (explicit_construct d); reflexivity.
Qed.

Lemma has_prototype_alloc st c :
  has_prototype (alloc st (FCustom c)) (VFun (length st)) = Some true.
Proof. unfold has_prototype. by rewrite lookup_alloc. Qed.

Lemma ce_of_alloc st c : ce_of (alloc st (FCustom c)) (VFun (length st)) = Some c.
Proof. unfold ce_of. by rewrite lookup_alloc. Qed.

(** A chain of plain descriptors under a root with a prototype always
    builds, and what its last class records is the nearest definition
    going up the chain. *)
Lemma derive_nearest ds : forall st root,
  forallb plain ds = true ->
  has_prototype st (VFun root) = Some true ->
  exists a st',
    derive st root ds = (Ret a, st') /\
    frozen st st' /\
    has_prototype st' (VFun a) = Some true /\
    recorded_message (ce_of st' (VFun a)) = nearest_message (rev ds) (ce_of st (VFun root)) /\
    recorded_construct (ce_of st' (VFun a)) = nearest_construct (rev ds) (ce_of st (VFun root)) /\
    (forall d, last ds = Some d ->
       exists c, ce_of st' (VFun a) = Some c /\ c_abstract c = explicit_abstract d).
Proof.
  induction ds as [|d rest IH]; intros st root Hplain Hproto.
  - exists root, st. simpl. repeat split; auto using frozen_refl. discriminate.
  - simpl in Hplain. apply andb_prop in Hplain as [Hd Hrest].
    destruct (inherit_from_step st root d Hd Hproto) as (c1 & Hstep & Hab & Hm & Hc).
    destruct (IH (alloc st (FCustom c1)) (length st) Hrest (has_prototype_alloc st c1))
      as (a & st' & Hder & Hfr & Hpr & Hm' & Hc' & Hsome).
    exists a, st'. simpl derive. rewrite Hstep, Hder.
    rewrite ce_of_alloc in Hm', Hc'.
    repeat split.
    + eapply frozen_trans; [apply frozen_alloc|exact Hfr].
    + exact Hpr.
    + simpl rev. rewrite (nearest_message_snoc _ _ _ c1 Hm). exact Hm'.
    + simpl rev. rewrite (nearest_construct_snoc _ _ _ c1 Hc). exact Hc'.
    + intros dl Hlast. destruct rest as [|d' rest'].
      * simpl in Hder, Hlast. inversion Hder; inversion Hlast; subst.
        rewrite ce_of_alloc. eauto.
      * apply Hsome. exact Hlast.
Qed.

(** ** Blocks: the store only grows *)

Lemma write_back_fns name shared fs s : fns (write_back name shared fs s) = fns s.
Proof.
  unfold write_back. destruct shared; [|reflexivity].
  destruct (p (blk s)); reflexivity.
Qed.

Lemma throw_not_found_state {A} fuel arg s (o : outcome A) s' :
  throw_not_found fuel arg s = (o, s') -> s' = s.
Proof.
  unfold throw_not_found.
  destruct (construct fuel (fns s) ErrorNotFound [VStr arg]); intros H;
    inversion H; reflexivity.
Qed.

Lemma getBase_frozen s o s' : getBase s = (o, s') -> frozen (fns s) (fns s').
Proof.
  unfold getBase. destruct (p (blk s)) as [r|a].
  2:{ intros H; inversion H; subst; apply frozen_refl. }
  destruct (base r); try (intros H; inversion H; subst; apply frozen_refl).
  destruct (create _ _ _ _ _ _) as [o1 st] eqn:Hc.
  apply create_frozen in Hc.
  destruct o1; [destruct (this_set _ _ _)|..]; intros H; inversion H; subst; exact Hc.
Qed.

Lemma install_frozen name shared fs parent s o s' :
  install name shared fs parent s = (o, s') -> frozen (fns s) (fns s').
Proof.
  unfold install.
  destruct (create _ _ _ _ _ _) as [o1 st] eqn:Hc.
  apply create_frozen in Hc. rewrite write_back_fns in Hc.
  destruct o1; [destruct (this_set _ _ _)|..]; intros H; inversion H; subst; exact Hc.
Qed.

Ltac same_state H := solve [inversion H; subst; apply frozen_refl].

Lemma get_frozen fuel : forall name s o s',
  get fuel name s = (o, s') -> frozen (fns s) (fns s').
Proof.
  induction fuel as [|n IH]; intros name s o s'; simpl.
  { intros H; same_state H. }
  destruct (this_fn (blk s) name). { intros H; same_state H. }
  destruct (p (blk s)) as [r|a]. 2:{ intros H; same_state H. }
  destruct (has_own (errors r) name) as [[|]| |]; try (intros H; same_state H).
  - destruct (normalize _ _) as [fs shared ptr|fs shared|].
    3:{ intros H; same_state H. }
    2:{ intros H; inversion H; subst. rewrite write_back_fns. apply frozen_refl. }
    pose proof (write_back_fns name shared fs s) as Hwb.
    destruct ptr as [| |[|]| |ref|a| |].
    1,2,5,8,9:
      intros H; apply throw_not_found_state in H; subst; rewrite Hwb; apply frozen_refl.
    + destruct (dispatches _ _ _).
      2:{ intros H; inversion H; subst. rewrite Hwb. apply frozen_refl. }
      destruct (getBase _) as [[parent| | |] s1] eqn:Hb; apply getBase_frozen in Hb;
        rewrite Hwb in Hb.
      * intros H. apply install_frozen in H. eapply frozen_trans; eauto.
      * intros H; inversion H; subst; exact Hb.
      * intros H; inversion H; subst; exact Hb.
      * intros H; inversion H; subst; exact Hb.
    + intros H. apply install_frozen in H. rewrite Hwb in H. exact H.
    + destruct (dispatches _ _ _).
      2:{ intros H; inversion H; subst. rewrite Hwb. apply frozen_refl. }
      destruct (get n ref _) as [[parent| | |] s1] eqn:Hg; apply IH in Hg;
        rewrite Hwb in Hg.
      * intros H. apply install_frozen in H. eapply frozen_trans; eauto.
      * intros H; inversion H; subst; exact Hg.
      * intros H; inversion H; subst; exact Hg.
      * intros H; inversion H; subst; exact Hg.
    + destruct (this_set _ _ _); intros H; inversion H; subst; simpl;
        rewrite ?Hwb; apply frozen_refl.
  - destruct (base r) as [| | | |b| | |];
      try (intros H; apply throw_not_found_state in H; subst; apply frozen_refl).
    destruct (String.eqb b name).
    + destruct (dispatches _ _ _); [apply getBase_frozen|intros H; same_state H].
    + intros H; apply throw_not_found_state in H; subst; apply frozen_refl.
Qed.

Lemma get_each_frozen fuel names : forall s o s',
  get_each fuel names s = (o, s') -> frozen (fns s) (fns s').
Proof.
  induction names as [|name rest IH]; intros s o s'; simpl.
  { intros H; same_state H. }
  destruct (dispatches _ _ _); [|intros H; same_state H].
  destruct (get fuel name s) as [[v| | |] s1] eqn:Hg; apply get_frozen in Hg;
    intros H; try (inversion H; subst; exact Hg).
  apply IH in H. eapply frozen_trans; eauto.
Qed.

Lemma createAll_frozen fuel s o s' :
  createAll fuel s = (o, s') -> frozen (fns s) (fns s').
Proof.
  unfold createAll. destruct (truthy _); [intros H; same_state H|].
  destruct (p (blk s)) as [r|a]; [|intros H; same_state H].
  destruct (errors r) as [|e es]; [intros H; same_state H|].
  destruct (has_own _ _) as [[|]| |]; try (intros H; same_state H).
  destruct (get_each _ _ _) as [[u| | |] s1] eqn:Hg; apply get_each_frozen in Hg;
    intros H; inversion H; subst; exact Hg.
Qed.

(** C1.  Take any class with a prototype as root and any non-empty chain
    of descriptors, each inheriting from the class made by the one before.
    The chain builds, and the class made last records as default message
    the explicit value of the nearest descriptor, going up from its own,
    that gives one other than [null]/[undefined] (at the top, what the
    root had recorded; if nobody defines one, a [null] or [undefined]),
    and as routine the explicit value of the nearest descriptor that gives
    a function (at the top, the root's recorded routine or none).  The
    record is made at creation and stays: building the chain changes no
    function that existed before, and no later [create], [get] or
    [createAll] changes the class. *)
Theorem defaults_resolved_at_creation st root ds :
  forallb plain ds = true ->
  ds <> [] ->
  has_prototype st (VFun root) = Some true ->
  exists a st' c,
    derive st root ds = (Ret a, st') /\
    st' !! a = Some (FCustom c) /\
    message_is (ce_defmessage c) (nearest_message (rev ds) (ce_of st (VFun root))) /\
    ce_construct c = nearest_construct (rev ds) (ce_of st (VFun root)) /\
    frozen st st' /\
    (forall n p d ab co o st2,
       create st' n p d ab co = (o, st2) -> st2 !! a = Some (FCustom c)) /\
    (forall fuel name b o s2,
       get fuel name (State st' b) = (o, s2) -> fns s2 !! a = Some (FCustom c)) /\
    (forall fuel b o s2,
       createAll fuel (State st' b) = (o, s2) -> fns s2 !! a = Some (FCustom c)).
Proof.
  intros Hplain Hne Hproto.
  destruct (derive_nearest ds st root Hplain Hproto)
    as (a & st' & Hder & Hfr & _ & Hm & Hc & Hlast).
  destruct (last ds) as [dl|] eqn:El.
  2:{ apply last_None in El. contradiction. }
  destruct (Hlast dl eq_refl) as (c & Hce & _).
  assert (Hlook : st' !! a = Some (FCustom c)).
  { unfold ce_of in Hce. destruct (st' !! a) as [[| | |c']|]; congruence. }
  exists a, st', c. rewrite Hce in Hm, Hc. simpl in Hc.
  repeat split; auto.
  - unfold message_is. rewrite <- Hm. simpl.
    destruct (nullish (ce_defmessage c)) eqn:E; auto.
  - intros n p d ab co o st2 H. apply create_frozen in H. by apply H.
  - intros fuel name b o s2 H. apply get_frozen in H. by apply H.
  - intros fuel b o s2 H. apply createAll_frozen in H. by apply H.
Qed.

Lemma defaults_resolved_at_creation_witness :
  exists a st' c,
    derive init_store Error_addr sample_chain = (Ret a, st') /\
    st' !! a = Some (FCustom c) /\
    message_is (ce_defmessage c)
      (nearest_message (rev sample_chain) (ce_of init_store (VFun Error_addr))) /\
    ce_construct c =
      nearest_construct (rev sample_chain) (ce_of init_store (VFun Error_addr)) /\
    frozen init_store st' /\
    (forall n p d ab co o st2,
       create st' n p d ab co = (o, st2) -> st2 !! a = Some (FCustom c)) /\
    (forall fuel name b o s2,
       get fuel name (State st' b) = (o, s2) -> fns s2 !! a = Some (FCustom c)) /\
    (forall fuel b o s2,
       createAll fuel (State st' b) = (o, s2) -> fns s2 !! a = Some (FCustom c)).
Proof.
  apply (defaults_resolved_at_creation init_store Error_addr sample_chain).
  - reflexivity.
  - discriminate.
  - reflexivity.
Defined.

(** On the sample chain the youngest class ends up with the eldest
    descriptor's message and routine. *)
Example sample_chain_resolved :
  nearest_message (rev sample_chain) (ce_of init_store (VFun Error_addr))
    = Some (VStr "failed") /\
  nearest_construct (rev sample_chain) (ce_of init_store (VFun Error_addr))
    = Some abstract_routine_addr /\
  (derive init_store Error_addr sample_chain).1 = Ret 22.
Proof. repeat split. Qed.

(** Block resolution makes its classes by the same call: [install] hands
    [create] the descriptor's dictionary with [parent] set to the resolved
    class, which is what [inherit] does with a dictionary. *)
Example block_resolution_inherits st this fs :
  create st (VObj (assoc_set "parent" (VFun this) fs)) VUndef VUndef VUndef VUndef
  = inherit_from st this (Dictionary fs).
Proof. reflexivity. Qed.

(** ** Blocks: what is returned is cached *)

Lemma this_fn_set b name a b' :
  this_set b name a = Some b' -> this_fn b' name = Some a.
Proof.
  unfold this_set, this_fn.
  destruct (String.eqb name "p") eqn:Ep.
  { intros H; inversion H; subst; reflexivity. }
  destruct (String.eqb name "created") eqn:Ec.
  { intros H; inversion H; subst; reflexivity. }
  destruct (String.eqb name "__proto__") eqn:Eo; [discriminate|].
  intros H; inversion H; subst; simpl. by rewrite lookup_insert_eq.
Qed.

Lemma getBase_caches s r name v s' :
  p (blk s) = PRec r -> base r = VStr name ->
  getBase s = (Ret v, s') ->
  exists a, v = VFun a /\ this_fn (blk s') name = Some a.
Proof.
  intros Hp Hb. unfold getBase. rewrite Hp, Hb.
  destruct (create _ _ _ _ _ _) as [[a| | |] st]; try discriminate.
  destruct (this_set (blk s) name a) as [b|] eqn:Hs; [|discriminate].
  intros H; inversion H; subst; clear H. exists a. split; [reflexivity|].
  apply this_fn_set in Hs. simpl.
  destruct b as [[r'|a'] c o]; simpl; exact Hs.
Qed.

Lemma install_caches name shared fs parent s v s' :
  install name shared fs parent s = (Ret v, s') ->
  exists a, v = VFun a /\ this_fn (blk s') name = Some a.
Proof.
  unfold install.
  destruct (create _ _ _ _ _ _) as [[a| | |] st]; try discriminate.
  destruct (this_set _ name a) as [b|] eqn:Hs; [|discriminate].
  intros H; inversion H; subst. exists a. split; [reflexivity|].
  by apply this_fn_set in Hs.
Qed.

Lemma get_caches fuel name s v s' :
  get fuel name s = (Ret v, s') ->
  exists a, v = VFun a /\ this_fn (blk s') name = Some a.
Proof.
  destruct fuel as [|n]; simpl; [discriminate|].
  destruct (this_fn (blk s) name) as [a|] eqn:Hfn.
  { intros H; inversion H; subst. eauto. }
  destruct (p (blk s)) as [r|a] eqn:Hp; [|discriminate].
  destruct (has_own (errors r) name) as [[|]| |]; try discriminate.
  - destruct (normalize _ _) as [fs shared ptr|fs shared|]; try discriminate.
    destruct ptr as [| |[|]| |ref|a| |];
      try (intros H; pose proof (throw_not_found_state _ _ _ _ _ H) as ->;
           unfold throw_not_found in H;
           destruct (construct _ _ _ _); discriminate).
    + destruct (dispatches _ _ _); [|discriminate].
      destruct (getBase _) as [[parent| | |] s1]; try discriminate.
      apply install_caches.
    + apply install_caches.
    + destruct (dispatches _ _ _); [|discriminate].
      destruct (get n ref _) as [[parent| | |] s1]; try discriminate.
      apply install_caches.
    + destruct (this_set _ name a) as [b|] eqn:Hs; [|discriminate].
      intros H; inversion H; subst. exists a. split; [reflexivity|].
      by apply this_fn_set in Hs.
  - assert (Hnf : forall arg, throw_not_found (A:=value) n arg s <> (Ret v, s')).
    { intros arg. unfold throw_not_found.
      destruct (construct _ _ _ _); discriminate. }
    destruct (base r) as [| | | |b| | |] eqn:Hb; try (intros H; by apply Hnf in H).
    destruct (String.eqb b name) eqn:E; [|intros H; by apply Hnf in H].
    apply String.eqb_eq in E; subst b.
    destruct (dispatches _ _ _); [|discriminate].
    by apply (getBase_caches s r name).
Qed.



(** ** Blocks: names that are already functions *)

Lemma get_function_property fuel name s a :
  0 < fuel -> this_fn (blk s) name = Some a ->
  get fuel name s = (Ret (VFun a), s).
Proof.
  intros Hpos Hfn. destruct fuel as [|n]; [lia|]. simpl. by rewrite Hfn.
Qed.

Lemma this_fn_method b m a :
  In (m, a) block_methods -> own b !! m = None -> this_fn b m = Some a.
Proof.
  intros Hin Hown. unfold this_fn.
  simpl in Hin.
  destruct Hin as [H|[H|[H|[H|[]]]]]; inversion H; subst; simpl; rewrite Hown; reflexivity.
Qed.

(** C9 (as the code has it).  A name under which the Block already has a
    function-valued property is returned by [get] at once: nothing is
    looked up in the descriptor map, nothing is thrown and the Block is
    left as it was.  The methods [get], [raise], [createAll] and [getBase]
    inherited from the prototype are such names on every Block that has no
    own property of that name, whatever the descriptor map declares; a
    descriptor declared under one of these names is therefore never
    resolved and the method is not overwritten. *)
Theorem get_prefers_function_property fuel s :
  0 < fuel ->
  (forall name a, this_fn (blk s) name = Some a -> get fuel name s = (Ret (VFun a), s)) /\
  (forall m a, In (m, a) block_methods -> own (blk s) !! m = None ->
     get fuel m s = (Ret (VFun a), s)).
Proof.
  intros Hpos. split.
  - intros name a. by apply get_function_property.
  - intros m a Hin Hown. apply get_function_property; [exact Hpos|].
    by apply this_fn_method.
Qed.

Lemma get_prefers_function_property_witness :
  (forall name a, this_fn (blk shadow_block) name = Some a ->
     get 1 name shadow_block = (Ret (VFun a), shadow_block)) /\
  (forall m a, In (m, a) block_methods -> own (blk shadow_block) !! m = None ->
     get 1 m shadow_block = (Ret (VFun a), shadow_block)).
Proof. apply (get_prefers_function_property 1 shadow_block). apply Nat.lt_0_succ. Defined.

(** C9, as stated, fails: on a Block that declares a descriptor under the
    key ["get"], neither [get("get")] nor [createAll()] resolves it; both
    leave [this.get] the prototype's method and make no class. *)
Lemma method_name_descriptor_not_resolved :
  has_own [("get", VBool true)] "get" = Own true /\
  get 5 "get" shadow_block = (Ret (VFun get_addr), shadow_block) /\
  createAll 5 shadow_block = (Ret (), set_created shadow_block) /\
  this_fn (blk (set_created shadow_block)) "get" = Some get_addr /\
  fns (set_created shadow_block) = init_store.
Proof. vm_compute. repeat split; reflexivity. Qed.

(** ** Blocks: names that are not found *)

Lemma construct_not_found n st arg :
  frozen init_store st ->
  construct (2 + n) st ErrorNotFound [VStr arg] = Ret (not_found_error arg).
Proof.
  intros Hfr.
  assert (H1 : st !! ErrorNotFound = Some (FCustom ErrorNotFound_class))
    by (apply Hfr; reflexivity).
  assert (H2 : st !! notfound_routine_addr = Some (FUser notfound_routine))
    by (apply Hfr; reflexivity).
  unfold construct. rewrite H1. simpl. rewrite H1. simpl. rewrite H2. reflexivity.
Qed.

Lemma throw_not_found_ok {A} n arg s :
  frozen init_store (fns s) ->
  throw_not_found (A:=A) (2 + n) arg s = (Throw (ExInst (not_found_error arg)), s).
Proof.
  intros Hfr. unfold throw_not_found. by rewrite construct_not_found.
Qed.

(** C6 (as the code has it).  On a Block whose [p] record is intact, for a
    name that is not a key of the descriptor map (a map that does not
    itself define [hasOwnProperty]), is not the Block's base-type name,
    and under which the Block has no function-valued property (no cached
    class, no inherited method), [get(name)] throws the ErrorNotFound
    object that carries the prefixed name, and the Block is unchanged. *)
Theorem get_unknown_name_not_found n s r name :
  frozen init_store (fns s) ->
  p (blk s) = PRec r ->
  this_fn (blk s) name = None ->
  has_own (errors r) name = Own false ->
  base r <> VStr name ->
  get (3 + n) name s = (Throw (ExInst (not_found_error (prefix r ++ name))), s).
Proof.
  intros Hfr Hp Hfn Hown Hbase.
  change (3 + n) with (S (2 + n)). simpl get. rewrite Hfn, Hp, Hown.
  destruct (base r) as [| | | |b| | |]; try by apply throw_not_found_ok.
  destruct (String.eqb b name) eqn:E; [|by apply throw_not_found_ok].
  apply String.eqb_eq in E. congruence.
Qed.

Lemma get_unknown_name_not_found_witness :
  get 3 "Nope" api_block = (Throw (ExInst (not_found_error "api.Nope")), api_block).
Proof.
  apply (get_unknown_name_not_found 0 api_block
           (Params api_errors (VStr "api") "api." (VStr "Base") true) "Nope").
  - apply frozen_refl.
  - reflexivity.
  - reflexivity.
  - reflexivity.
  - discriminate.
Defined.

(** C6, as stated, fails: ["get"] is neither declared in the example
    Block nor its base-type name, and [get("get")] returns the prototype's
    method instead of throwing. *)
Lemma unknown_name_found_on_prototype :
  has_own api_errors "get" = Own false /\
  VStr "Base" <> VStr "get" /\
  get 3 "get" api_block = (Ret (VFun get_addr), api_block).
Proof. repeat split; discriminate. Qed.

(** ** Instantiation *)


Lemma construct_concrete n st a c args :
  st !! a = Some (FCustom c) ->
  truthy (c_abstract c) = false ->
  construct (S n) st a args =
  match ce_construct c with
  | Some k => call_fn n st k (Instance a []) args
  | None => Ret (store_message (Instance a []) args)
  end.
Proof.
  intros Ha Hab. unfold construct. rewrite Ha. simpl. rewrite Ha, Hab. reflexivity.
Qed.



(** The abstract class of the sample throws although it was given a
    routine; its child made by [inherit("app.Child")] is instantiated by
    that inherited routine, and a child of a routine-less abstract class
    just stores its message. *)
Example abstract_sample_runs :
  construct 3 abstract_sample 20 [VStr "x"]
    = Throw (ExInst (abstract_error (VStr "app.Base") "app.Base")) /\
  (let st2 := (inherit abstract_sample 20 (VStr "app.Child") VUndef VUndef VUndef).2 in
   construct 3 st2 21 [VStr "x"] = Ret (Instance 21 (i_own (not_found_error "x")))) /\
  (let st1 := (create init_store (VStr "A") VUndef VUndef (VBool true) VUndef).2 in
   let st2 := (inherit st1 20 (VStr "B") VUndef (VBool false) VUndef).2 in
   construct 3 st1 20 [] = Throw (ExInst (abstract_error (VStr "A") "A")) /\
   construct 3 st2 21 [VStr "x"] = Ret (Instance 21 [("message", VStr "x")])).
Proof. vm_compute. repeat split; reflexivity. Qed.

(** ** The example scenario *)

Example api_block_constructed fuel :
  new_Block fuel init_store api_errors (VStr "api") (VStr "Base") (VBool true)
  = (Ret (), api_block).
Proof. reflexivity. Qed.

(** C5.  On the example Block one [get("Invalid")] makes three classes,
    in this order (the store lists functions in order of creation): the
    abstract [api.Base] with empty default message under [Error], then
    [api.NotFound] with default message "missing" under that base, then
    [api.Invalid] with default message "bad input" under [api.NotFound];
    it returns the last one, and the Block then caches exactly these
    three, under [Base], [NotFound] and [Invalid].  Any fuel from 2 on
    gives this result. *)
Theorem get_Invalid_creates_three :
  get 5 "Invalid" api_block = (Ret (VFun 22), api_resolved) /\
  length init_store = 20 /\
  fns api_resolved
    = alloc (alloc (alloc init_store (FCustom api_Base)) (FCustom api_NotFound))
        (FCustom api_Invalid) /\
  own (blk api_resolved) !! "Base" = Some 20 /\
  own (blk api_resolved) !! "NotFound" = Some 21 /\
  own (blk api_resolved) !! "Invalid" = Some 22 /\
  size (own (blk api_resolved)) = 3 /\
  p (blk api_resolved)
    = PRec (Params api_errors (VStr "api") "api." (VFun 20) true) /\
  (forall n, get (2 + n) "Invalid" api_block = (Ret (VFun 22), api_resolved)).
Proof. vm_compute. repeat split; intros; reflexivity. Qed.

(** ** Raising *)

Lemma proto_get_own_class (st : store) cls c k :
  st !! cls = Some (FCustom c) ->
  proto_get (length st) st (VFun cls) k =
  if String.eqb k "name" then c_name c
  else if String.eqb k "message" then ce_defmessage c
  else if String.eqb k "constructor" then VFun cls
  else proto_get (pred (length st)) st (ce_parent c) k.
Proof.
  intros H. destruct (length st) as [|n] eqn:E.
  - apply length_zero_iff_nil in E. subst. discriminate.
  - simpl. rewrite H. reflexivity.
Qed.

(** C8.  [raise(name, message)] resolves [name] with [get] and throws
    what [new T(message)] yields for the returned class [T]: the instance
    it builds (or, when the construction itself throws, as for an abstract
    class, that exception).  For a class that is not abstract and has no
    routine the thrown object is an instance of [T] whose message reads as
    [message], or as the class's default when no message is passed, and
    whose name reads as the class's.  On the example Block,
    [raise("NotFound")] throws an instance of the class cached as
    [NotFound] whose message is "missing" and whose name is
    "api.NotFound". *)
Theorem raise_throws_instance fuel name message s cls s1 :
  dispatches (blk s) "get" get_addr = true ->
  get fuel name s = (Ret (VFun cls), s1) ->
  (forall e, construct fuel (fns s1) cls [message] = Ret e ->
     raise fuel name message s = (Throw (ExInst e), s1)) /\
  (forall x, construct fuel (fns s1) cls [message] = Throw x ->
     raise fuel name message s = (Throw x, s1)) /\
  (forall c, fns s1 !! cls = Some (FCustom c) ->
     truthy (c_abstract c) = false -> ce_construct c = None ->
     exists e,
       raise fuel name message s = (Throw (ExInst e), s1) /\
       i_class e = cls /\
       instance_get (fns s1) e "message"
         = (if nullish message then ce_defmessage c else message) /\
       instance_get (fns s1) e "name" = c_name c) /\
  (let thrown := Instance 21 [] in
   let s2 := (raise 5 "NotFound" VUndef api_block).2 in
   (raise 5 "NotFound" VUndef api_block).1 = Throw (ExInst thrown) /\
   this_fn (blk s2) "NotFound" = Some (i_class thrown) /\
   instance_get (fns s2) thrown "message" = VStr "missing" /\
   instance_get (fns s2) thrown "name" = VStr "api.NotFound").
Proof.
  intros Hd Hget.
  assert (Hraise : raise fuel name message s =
            match construct fuel (fns s1) cls [message] with
            | Ret e => (Throw (ExInst e), s1)
            | Throw e => (Throw e, s1)
            | Timeout => (Timeout, s1)
            | Unmodelled => (Unmodelled, s1)
            end).
  { unfold raise. by rewrite Hd, Hget. }
  split; [|split; [|split]].
  - intros e He. by rewrite Hraise, He.
  - intros x Hx. by rewrite Hraise, Hx.
  - intros c Hc Hab Hco.
    destruct fuel as [|n]; [discriminate|].
    exists (store_message (Instance cls []) [message]).
    assert (Hcon : construct (S n) (fns s1) cls [message]
                   = Ret (store_message (Instance cls []) [message])).
    { rewrite (construct_concrete n _ _ c) by assumption. by rewrite Hco. }
    rewrite Hraise, Hcon. unfold store_message, instance_get.
    change (item 0 [message]) with message.
    destruct (nullish message) eqn:E; simpl;
      rewrite ?(proto_get_own_class _ _ c) by assumption; repeat split.
  - vm_compute. repeat split; reflexivity.
Qed.

Lemma raise_throws_instance_witness :
  exists e,
    raise 5 "Invalid" (VStr "oops") api_block = (Throw (ExInst e), api_resolved) /\
    i_class e = 22 /\
    instance_get (fns api_resolved) e "message"
      = (if nullish (VStr "oops") then ce_defmessage api_Invalid else VStr "oops") /\
    instance_get (fns api_resolved) e "name" = c_name api_Invalid.
Proof.
  assert (Hget : get 5 "Invalid" api_block = (Ret (VFun 22), api_resolved))
    by (vm_compute; reflexivity).
  destruct (raise_throws_instance 5 "Invalid" (VStr "oops") api_block 22 api_resolved
              eq_refl Hget) as (_ & _ & H & _).
  exact (H api_Invalid eq_refl eq_refl eq_refl).
Defined.

(** ** The base type *)

Lemma this_set_plain b name a :
  reserved name = false ->
  this_set b name a = Some (Block (p b) (created b) (<[name := a]> (own b))).
Proof.
  unfold reserved, this_set. intros H.
  apply orb_false_iff in H as [H H3]. apply orb_false_iff in H as [H1 H2].
  by rewrite H1, H2, H3.
Qed.

Lemma getBase_fresh s r name :
  p (blk s) = PRec r ->
  base r = VStr name ->
  fns s !! Error_addr = Some FError ->
  reserved name = false ->
  getBase s =
  (Ret (VFun (length (fns s))),
   State (alloc (fns s) (FCustom (base_class (prefix r) name)))
     (Block (PRec (Params (errors r) (namespace r) (prefix r)
                     (VFun (length (fns s))) (lazy r)))
        (created (blk s)) (<[name := length (fns s)]> (own (blk s))))).
Proof.
  intros Hp Hb He Hres. unfold getBase. rewrite Hp, Hb.
  unfold create. simpl positional. unfold create_class.
  change (effective_parent (VFun Error_addr)) with (VFun Error_addr).
  unfold has_prototype. rewrite He.
  rewrite (this_set_plain _ _ _ Hres). simpl. rewrite Hp.
  unfold effective_defmessage, effective_construct, ce_of. rewrite He. reflexivity.
Qed.

(** C10.  The constructor brings its [base] argument to one of two forms
    before anything is resolved: [undefined], [true] and [null] become
    the string "Base"; [false] becomes the global [Error]; a function is
    kept; any other value becomes its string conversion (the number 42
    becomes "42").  The Block starts from that value, and a non-lazy
    Block runs [createAll] on it.  A string base is turned by [getBase],
    on first use, into a new abstract class named prefix + base with
    empty default message under [Error], cached under the base name and
    stored as the Block's base; a function base (so also [Error], for
    [false]) is returned as it is and nothing is created. *)
Theorem base_argument_normalized :
  normalize_base VUndef = Some (VStr "Base") /\
  normalize_base (VBool true) = Some (VStr "Base") /\
  normalize_base VNull = Some (VStr "Base") /\
  normalize_base (VBool false) = Some (VFun Error_addr) /\
  (forall a, normalize_base (VFun a) = Some (VFun a)) /\
  (forall v, nullish v = false -> typeof v <> TBoolean -> typeof v <> TFunction ->
     normalize_base v = VStr <$> to_str v) /\
  normalize_base (VNum 42) = Some (VStr "42") /\
  (forall fuel st errors ns base lazy b pre,
     normalize_base base = Some b -> make_prefix ns = Some pre ->
     new_Block fuel st errors ns base lazy =
     let s := State st (Block (PRec (Params errors ns pre b (truthy lazy)))
                          (VBool false) ∅) in
     if truthy lazy then (Ret (), s) else createAll fuel s) /\
  (forall s r name,
     p (blk s) = PRec r -> base r = VStr name ->
     fns s !! Error_addr = Some FError -> reserved name = false ->
     exists s',
       getBase s = (Ret (VFun (length (fns s))), s') /\
       fns s' = alloc (fns s) (FCustom (base_class (prefix r) name)) /\
       this_fn (blk s') name = Some (length (fns s)) /\
       exists r', p (blk s') = PRec r' /\ base r' = VFun (length (fns s))) /\
  (forall s r a,
     p (blk s) = PRec r -> base r = VFun a -> getBase s = (Ret (VFun a), s)).
Proof.
  repeat split.
  - intros v Hn Hb Hf. destruct v as [| |b| | | | |]; simpl in *; congruence.
  - intros fuel st errors ns base lazy b pre Hb Hp. unfold new_Block.
    by rewrite Hb, Hp.
  - intros s r name Hp Hb He Hres.
    eexists. split; [by apply (getBase_fresh s r name)|]. simpl.
    split; [reflexivity|]. split.
    + unfold this_fn. unfold reserved in Hres.
      apply orb_false_iff in Hres as [H H3]. apply orb_false_iff in H as [H1 H2].
      rewrite H1, H2, H3. simpl. by rewrite lookup_insert_eq.
    + eexists. split; reflexivity.
  - intros s r a Hp Hb. unfold getBase. by rewrite Hp, Hb.
Qed.

Lemma base_argument_normalized_witness :
  new_Block 5 init_store api_errors (VStr "api") VUndef (VBool true)
  = (Ret (), api_block) /\
  exists s',
    getBase api_block = (Ret (VFun (length (fns api_block))), s') /\
    fns s' = alloc (fns api_block) (FCustom (base_class "api." "Base")) /\
    this_fn (blk s') "Base" = Some (length (fns api_block)) /\
    exists r', p (blk s') = PRec r' /\ base r' = VFun (length (fns api_block)).
Proof.
  destruct base_argument_normalized as (_ & _ & _ & _ & _ & _ & _ & Hnew & Hbase & _).
  split.
  - exact (Hnew 5 init_store api_errors (VStr "api") VUndef (VBool true)
             (VStr "Base") "api." eq_refl eq_refl).
  - exact (Hbase api_block (Params api_errors (VStr "api") "api." (VStr "Base") true)
             "Base" eq_refl eq_refl eq_refl eq_refl).
Defined.

(** The default base of a Block in namespace [api], on first use. *)
Example default_base_on_first_use :
  let s := (new_Block 3 init_store [] (VStr "api") VUndef (VBool true)).2 in
  (getBase s).1 = Ret (VFun 20) /\
  drop (length init_store) (fns (getBase s).2) = [FCustom api_Base] /\
  base_class "api." "Base" = api_Base.
Proof. vm_compute. repeat split; reflexivity. Qed.

(** ** Parent references *)


(** What a successful [install] has done: one new class, made from the
    descriptor's fields under the resolved parent. *)
Lemma install_ret name shared fs parent s full v s' :
  field "name" fs = VStr full ->
  install name shared fs parent s = (Ret v, s') ->
  v = VFun (length (fns s)) /\
  fns s' = alloc (fns s) (FCustom (resolved_class (fns s) full fs parent)).
Proof.
  intros Hname. unfold install. rewrite write_back_fns.
  unfold create. rewrite positional_plain.
  2:{ rewrite field_set_ne by discriminate. by rewrite Hname. }
  rewrite field_set_eq, !field_set_ne by discriminate. rewrite Hname.
  destruct (create_class _ _ _ _ _ _) as [[a| | |] st] eqn:Hc; try discriminate.
  apply create_class_ret in Hc as [-> ->].
  destruct (this_set _ _ _); [|discriminate].
  intros H; inversion H; subst. split; reflexivity.
Qed.



(** The five descriptors of the sample Block, resolved one after the
    other on the fresh Block. *)
Example alias_block_resolved :
  (get 5 "Alias" alias_block).1 = Ret (VFun AbstractError) /\
  (get 5 "Loose" alias_block).1 = Ret (VFun 21) /\
  (get 5 "Empty" alias_block).1
    = Throw (ExInst (not_found_error "Error ns.Empty is not found in the block")) /\
  (get 5 "Rootless" alias_block).1 = Ret (VFun 20) /\
  (get 5 "Child" alias_block).1 = Ret (VFun 21) /\
  fns (get 5 "Child" alias_block).2
  = alloc (alloc init_store
             (FCustom (Custom (VStr "ns.Rootless") VUndef (VFun Error_addr) VUndef None)))
      (FCustom (Custom (VStr "ns.Child") VUndef (VFun 20) VUndef None)).
Proof. vm_compute. repeat split; reflexivity. Qed.


(** ** Blocks: cached classes stay *)

Lemma this_set_other b name a b' k :
  this_set b name a = Some b' -> name <> k -> this_fn b' k = this_fn b k.
Proof.
  unfold this_set. intros H Hne.
  destruct (String.eqb name "p") eqn:Ep.
  { apply String.eqb_eq in Ep; subst name. inversion H; subst; clear H.
    unfold this_fn. destruct (String.eqb k "p") eqn:E; [|reflexivity].
    apply String.eqb_eq in E. congruence. }
  destruct (String.eqb name "created") eqn:Ec.
  { apply String.eqb_eq in Ec; subst name. inversion H; subst; clear H.
    unfold this_fn. destruct (String.eqb k "p"); [reflexivity|].
    destruct (String.eqb k "created") eqn:E; [|reflexivity].
    apply String.eqb_eq in E. congruence. }
  destruct (String.eqb name "__proto__"); [discriminate|].
  inversion H; subst; clear H. unfold this_fn; simpl.
  destruct (String.eqb k "p"); [reflexivity|].
  destruct (String.eqb k "created"); [reflexivity|].
  destruct (String.eqb k "__proto__"); [reflexivity|].
  by rewrite lookup_insert_ne.
Qed.

Lemma this_set_base b name a b' k :
  this_set b name a = Some b' -> base_name_is b k = false -> base_name_is b' k = false.
Proof.
  unfold this_set, base_name_is. intros H Hb.
  destruct (String.eqb name "p"). { inversion H; reflexivity. }
  destruct (String.eqb name "created"). { inversion H; subst; exact Hb. }
  destruct (String.eqb name "__proto__"); [discriminate|].
  inversion H; subst; exact Hb.
Qed.

Lemma write_back_this_fn name shared fs s k :
  this_fn (blk (write_back name shared fs s)) k = this_fn (blk s) k.
Proof.
  unfold write_back. destruct shared; [|reflexivity].
  destruct (p (blk s)) eqn:E; [|reflexivity].
  unfold this_fn; simpl. by rewrite E.
Qed.

Lemma write_back_base name shared fs s k :
  base_name_is (blk (write_back name shared fs s)) k = base_name_is (blk s) k.
Proof.
  unfold write_back. destruct shared; [|reflexivity].
  unfold base_name_is. destruct (p (blk s)) eqn:E; simpl; by rewrite ?E.
Qed.


Lemma keeps_same_blk k s s' : blk s' = blk s -> keeps k s s'.
Proof. intros E H. rewrite E. split; auto. Qed.

Lemma keeps_refl k s : keeps k s s.
Proof. by apply keeps_same_blk. Qed.

Lemma keeps_trans k s1 s2 s3 : keeps k s1 s2 -> keeps k s2 s3 -> keeps k s1 s3.
Proof.
  intros H12 H23 Hb. destruct (H12 Hb) as [Hb2 Hf2].
  destruct (H23 Hb2) as [Hb3 Hf3]. split; auto.
Qed.

Lemma keeps_write_back k name shared fs s : keeps k s (write_back name shared fs s).
Proof.
  intros Hb. rewrite write_back_base, Hb. split; [reflexivity|].
  intros a. by rewrite write_back_this_fn.
Qed.

Lemma keeps_throw_not_found {A} k fuel arg s (o : outcome A) s' :
  throw_not_found fuel arg s = (o, s') -> keeps k s s'.
Proof. intros H. apply throw_not_found_state in H. subst. apply keeps_refl. Qed.

Lemma getBase_keeps k s o s' : getBase s = (o, s') -> keeps k s s'.
Proof.
  unfold getBase. destruct (p (blk s)) as [r|a0] eqn:Hp.
  2:{ intros H; inversion H; subst; apply keeps_refl. }
  destruct (base r) as [| | | |name| | |] eqn:Hbase;
    try (intros H; inversion H; subst; apply keeps_refl).
  destruct (create _ _ _ _ _ _) as [[a| | |] st];
    try (intros H; inversion H; subst; by apply keeps_same_blk).
  destruct (this_set (blk s) name a) as [b|] eqn:Hs.
  2:{ intros H; inversion H; subst; by apply keeps_same_blk. }
  intros H; inversion H; subst; clear H. intros Hb.
  assert (Hne : name <> k).
  { unfold base_name_is in Hb. rewrite Hp, Hbase in Hb.
    intros ->. by rewrite String.eqb_refl in Hb. }
  pose proof (this_set_other _ _ _ _ k Hs Hne) as Hfn.
  simpl. destruct (p b) as [r'|a'] eqn:Hpb; simpl.
  - split; [unfold base_name_is; reflexivity|].
    intros a1 H1. rewrite <- Hfn in H1. unfold this_fn in *; simpl.
    by rewrite Hpb in H1.
  - split.
    + unfold base_name_is. by rewrite Hpb.
    + intros a1 H1. by rewrite Hfn.
Qed.

Lemma install_keeps k name shared fs parent s o s' :
  name <> k -> install name shared fs parent s = (o, s') -> keeps k s s'.
Proof.
  intros Hne. unfold install.
  pose proof (keeps_write_back k name shared (assoc_set "parent" parent fs) s) as Hwb.
  destruct (create _ _ _ _ _ _) as [[a| | |] st];
    try (intros H; inversion H; subst;
         eapply keeps_trans; [exact Hwb|by apply keeps_same_blk]).
  destruct (this_set _ name a) as [b|] eqn:Hs;
    [|intros H; inversion H; subst;
      eapply keeps_trans; [exact Hwb|by apply keeps_same_blk]].
  intros H; inversion H; subst; clear H.
  intros Hb. destruct (Hwb Hb) as [Hb1 Hf1]. simpl. split.
  - by apply (this_set_base _ _ _ _ k Hs).
  - intros a1 H1. rewrite (this_set_other _ _ _ _ k Hs Hne). by apply Hf1.
Qed.

Lemma install_base k name shared fs parent s o s' :
  install name shared fs parent s = (o, s') ->
  base_name_is (blk s) k = false -> base_name_is (blk s') k = false.
Proof.
  unfold install. intros H Hb.
  rewrite <- (write_back_base name shared (assoc_set "parent" parent fs)) in Hb.
  destruct (create _ _ _ _ _ _) as [[a| | |] st];
    try (inversion H; subst; exact Hb).
  destruct (this_set _ name a) as [b|] eqn:Hs; inversion H; subst; simpl; auto.
  by apply (this_set_base _ _ _ _ k Hs).
Qed.

(** A step that ends in [install] for a name the Block did not have. *)
Lemma keeps_install k name shared fs parent s s1 o s' :
  this_fn (blk s) name = None ->
  keeps k s s1 ->
  install name shared fs parent s1 = (o, s') ->
  keeps k s s'.
Proof.
  intros Hnone H1 Hi Hb. destruct (H1 Hb) as [Hb1 Hf1]. split.
  - by apply (install_base k _ _ _ _ _ _ _ Hi).
  - intros a Ha.
    assert (Hne : name <> k) by (intros ->; congruence).
    destruct (install_keeps k _ _ _ _ _ _ _ Hne Hi Hb1) as [_ Hf2]. auto.
Qed.

Lemma keeps_this_set k name a s s0 b :
  this_fn (blk s) name = None ->
  keeps k s s0 ->
  this_set (blk s0) name a = Some b ->
  keeps k s (State (fns s0) b).
Proof.
  intros Hnone H0 Hs Hb. destruct (H0 Hb) as [Hb0 Hf0]. simpl. split.
  - by apply (this_set_base _ _ _ _ k Hs).
  - intros a1 Ha.
    assert (Hne : name <> k) by (intros ->; congruence).
    rewrite (this_set_other _ _ _ _ k Hs Hne). auto.
Qed.

Lemma get_keeps k fuel : forall name s o s',
  get fuel name s = (o, s') -> keeps k s s'.
Proof.
  induction fuel as [|n IH]; intros name s o s'; simpl.
  { intros H; inversion H; subst; apply keeps_refl. }
  destruct (this_fn (blk s) name) eqn:Hfn.
  { intros H; inversion H; subst; apply keeps_refl. }
  destruct (p (blk s)) as [r|a0].
  2:{ intros H; inversion H; subst; apply keeps_refl. }
  destruct (has_own (errors r) name) as [[|]| |];
    try (intros H; inversion H; subst; apply keeps_refl).
  - destruct (normalize _ _) as [fs shared ptr|fs shared|].
    3:{ intros H; inversion H; subst; apply keeps_refl. }
    2:{ intros H; inversion H; subst. apply keeps_write_back. }
    pose proof (keeps_write_back k name shared fs s) as Hwb.
    destruct ptr as [| |[|]| |ref|a| |];
      try (intros H; eapply keeps_trans;
           [exact Hwb|exact (keeps_throw_not_found k _ _ _ _ _ H)]).
    + destruct (dispatches _ _ _).
      2:{ intros H; inversion H; subst. exact Hwb. }
      destruct (getBase _) as [[parent| | |] s1] eqn:Hb;
        apply (getBase_keeps k) in Hb;
        pose proof (keeps_trans _ _ _ _ Hwb Hb) as H1;
        try (intros H; inversion H; subst; exact H1).
      by apply keeps_install.
    + by apply keeps_install.
    + destruct (dispatches _ _ _).
      2:{ intros H; inversion H; subst. exact Hwb. }
      destruct (get n ref _) as [[parent| | |] s1] eqn:Hg;
        apply IH in Hg;
        pose proof (keeps_trans _ _ _ _ Hwb Hg) as H1;
        try (intros H; inversion H; subst; exact H1).
      by apply keeps_install.
    + destruct (this_set _ name a) as [b|] eqn:Hs.
      * intros H; inversion H; subst. by apply (keeps_this_set k name a s _ b).
      * intros H; inversion H; subst. exact Hwb.
  - destruct (base r) as [| | | |b| | |];
      try (intros H; exact (keeps_throw_not_found k _ _ _ _ _ H)).
    destruct (String.eqb b name).
    + destruct (dispatches _ _ _); [apply getBase_keeps|].
      intros H; inversion H; subst; apply keeps_refl.
    + intros H; exact (keeps_throw_not_found k _ _ _ _ _ H).
Qed.

Lemma get_each_keeps k fuel names : forall s o s',
  get_each fuel names s = (o, s') -> keeps k s s'.
Proof.
  induction names as [|name rest IH]; intros s o s'; simpl.
  { intros H; inversion H; subst; apply keeps_refl. }
  destruct (dispatches _ _ _); [|intros H; inversion H; subst; apply keeps_refl].
  destruct (get fuel name s) as [[v| | |] s1] eqn:Hg; apply (get_keeps k) in Hg;
    intros H; try (inversion H; subst; exact Hg).
  apply IH in H. eapply keeps_trans; eauto.
Qed.

Lemma get_each_app fuel l1 : forall l2 s s',
  get_each fuel (l1 ++ l2) s = (Ret (), s') ->
  exists s1, get_each fuel l1 s = (Ret (), s1) /\ get_each fuel l2 s1 = (Ret (), s').
Proof.
  induction l1 as [|name rest IH]; intros l2 s s'; simpl.
  { intros H. exists s. auto. }
  destruct (dispatches _ _ _); [|discriminate].
  destruct (get fuel name s) as [[v| | |] s1]; try discriminate.
  apply IH.
Qed.

(** ** Eager creation *)

Lemma this_fn_set_created s name :
  name <> "created" -> this_fn (blk (set_created s)) name = this_fn (blk s) name.
Proof.
  intros Hne. unfold this_fn, set_created; simpl.
  destruct (String.eqb name "p"); [reflexivity|].
  destruct (String.eqb name "created") eqn:E; [|reflexivity].
  by apply String.eqb_eq in E.
Qed.

Lemma createAll_ret fuel s r s' :
  p (blk s) = PRec r ->
  truthy (created (blk s)) = false ->
  createAll fuel s = (Ret (), s') ->
  exists s1, get_each fuel (map fst (errors r)) s = (Ret (), s1) /\ s' = set_created s1.
Proof.
  intros Hp Hc. unfold createAll. rewrite Hc, Hp.
  destruct (errors r) as [|e es] eqn:He.
  { intros H; inversion H; subst. exists s. split; reflexivity. }
  destruct (has_own _ _) as [[|]| |]; try discriminate.
  destruct (get_each _ _ _) as [[[]| | |] s1]; try discriminate.
  intros H; inversion H; subst. exists s1. split; reflexivity.
Qed.

(** C7 (as the code has it).  Let [createAll()] return on a Block with an
    intact [p] record and a false [created] flag.  Then
    - every later [createAll()] does nothing (the flag is set);
    - the call was [get] on each declared name, in the order of the
      descriptor map, followed by setting the flag;
    - for every declared name other than ["created"] and other than the
      base-type name the Block started with, the class that this [get]
      call returned is the one cached afterwards: a later [get] returns
      that same function and changes nothing;
    - dependencies are made out of declared order: when [Invalid] is
      declared before its parent [NotFound], the classes are still made
      in the order Base, NotFound, Invalid. *)
Theorem createAll_once_then_cached fuel s r s' :
  p (blk s) = PRec r ->
  truthy (created (blk s)) = false ->
  createAll fuel s = (Ret (), s') ->
  (forall fuel', createAll fuel' s' = (Ret (), s')) /\
  (exists s1, get_each fuel (map fst (errors r)) s = (Ret (), s1) /\
              s' = set_created s1) /\
  (forall l1 name l2, map fst (errors r) = (l1 ++ name :: l2)%list ->
     exists sa a sb s1,
       get_each fuel l1 s = (Ret (), sa) /\
       get fuel name sa = (Ret (VFun a), sb) /\
       get_each fuel l2 sb = (Ret (), s1) /\
       s' = set_created s1 /\
       (name <> "created" -> base r <> VStr name ->
        this_fn (blk s') name = Some a /\
        forall fuel', 0 < fuel' -> get fuel' name s' = (Ret (VFun a), s'))) /\
  ((createAll 5 reversed_block).1 = Ret () /\
   drop (length init_store) (fns (createAll 5 reversed_block).2)
   = [FCustom api_Base; FCustom api_NotFound; FCustom api_Invalid]).
Proof.
  intros Hp Hc Hall.
  destruct (createAll_ret _ _ _ _ Hp Hc Hall) as (s1 & Heach & ->).
  split; [|split; [|split]].
  - intros fuel'. reflexivity.
  - exists s1. split; [exact Heach|reflexivity].
  - intros l1 name l2 Hnames. rewrite Hnames in Heach.
    apply get_each_app in Heach as (sa & Ha & Hrest).
    simpl in Hrest.
    destruct (dispatches _ _ _); [|discriminate].
    destruct (get fuel name sa) as [[v| | |] sb] eqn:Hg; try discriminate.
    destruct (get_caches _ _ _ _ _ Hg) as (a & -> & Hfn).
    exists sa, a, sb, s1. repeat split; auto.
    + assert (Hb : base_name_is (blk s) name = false).
      { unfold base_name_is. rewrite Hp.
        destruct (base r) as [| | | |b| | |]; try reflexivity.
        destruct (String.eqb b name) eqn:E; [|reflexivity].
        apply String.eqb_eq in E. congruence. }
      destruct (get_each_keeps name _ _ _ _ _ Ha Hb) as [Hba _].
      destruct (get_keeps name _ _ _ _ _ Hg Hba) as [Hbb _].
      destruct (get_each_keeps name _ _ _ _ _ Hrest Hbb) as [_ Hkeep].
      rewrite this_fn_set_created by assumption. by apply Hkeep.
    + intros fuel' Hpos. apply get_function_property; [exact Hpos|].
      assert (Hb : base_name_is (blk s) name = false).
      { unfold base_name_is. rewrite Hp.
        destruct (base r) as [| | | |b| | |]; try reflexivity.
        destruct (String.eqb b name) eqn:E; [|reflexivity].
        apply String.eqb_eq in E. congruence. }
      destruct (get_each_keeps name _ _ _ _ _ Ha Hb) as [Hba _].
      destruct (get_keeps name _ _ _ _ _ Hg Hba) as [Hbb _].
      destruct (get_each_keeps name _ _ _ _ _ Hrest Hbb) as [_ Hkeep].
      rewrite this_fn_set_created by assumption. by apply Hkeep.
  - vm_compute. split; reflexivity.
Qed.

Lemma createAll_once_then_cached_witness :
  createAll 5 api_block = (Ret (), api_created) /\
  (forall fuel', createAll fuel' api_created = (Ret (), api_created)) /\
  (exists s1, get_each 5 (map fst api_errors) api_block = (Ret (), s1) /\
              api_created = set_created s1).
Proof.
  assert (H : createAll 5 api_block = (Ret (), api_created))
    by (vm_compute; reflexivity).
  split; [exact H|].
  pose proof (createAll_once_then_cached 5 api_block
                (Params api_errors (VStr "api") "api." (VStr "Base") true)
                api_created eq_refl eq_refl H) as (H1 & H2 & _).
  split; [exact H1|exact H2].
Defined.

(** A declared name that is also the base-type name loses its class in
    another way: [createAll] resolves the descriptor [Base] to class 20, then
    resolving [X] makes the abstract base, class 21, and stores it under
    the same name; afterwards [get("Base")] returns class 21, not the
    class that a lazy [get("Base")] makes from the descriptor. *)
Lemma createAll_replaces_declared_base :
  (get 5 "Base" collision_block).1 = Ret (VFun 20) /\
  (createAll 5 collision_block).1 = Ret () /\
  (get 5 "Base" (createAll 5 collision_block).2).1 = Ret (VFun 21) /\
  drop (length init_store) (fns (createAll 5 collision_block).2)
  = [FCustom (Custom (VStr "ns.Base") VUndef (VFun Error_addr) VUndef None);
     FCustom (base_class "ns." "Base");
     FCustom (Custom (VStr "ns.X") VUndef (VFun 21) (VStr "") None)].
Proof. vm_compute. repeat split; reflexivity. Qed.

(** C7, as stated, fails for a declared name that is also a property of
    the Block itself: [createAll] resolves the descriptor [created] to
    class 21 and stores it as [this.created], then overwrites it with the
    flag [true]; afterwards the name is not cached any more, and
    [get("created")] makes and returns another class, 22. *)
Lemma createAll_forgets_created :
  (get 5 "created" created_block).1 = Ret (VFun 21) /\
  (createAll 5 created_block).1 = Ret () /\
  this_fn (blk (createAll 5 created_block).2) "created" = None /\
  length (fns (createAll 5 created_block).2) = 22 /\
  (get 5 "created" (createAll 5 created_block).2).1 = Ret (VFun 22) /\
  length (fns (get 5 "created" (createAll 5 created_block).2).2) = 23.
Proof. vm_compute. repeat split; reflexivity. Qed.

(** * Further properties of the code *)

(** ** Chaining to the parent's routine *)

Lemma chaining_call_diverges (st : store) k b c cb cc args :
  st !! k = Some (FUser chaining_routine) ->
  st !! c = Some (FCustom cc) ->
  ce_parent cc = VFun b ->
  st !! b = Some (FCustom cb) ->
  ce_construct cb = Some k ->
  forall fuel, call_fn fuel st k (Instance c []) args = Timeout.
Proof.
  intros Hk Hc Hpar Hb Hcb. induction fuel as [|n IH]; [reflexivity|].
  simpl. rewrite Hk. unfold chaining_routine, parent_construct. simpl.
  unfold ce_of. rewrite Hc, Hpar, Hb, Hcb. exact IH.
Qed.

(** X5.  A class that inherits the chaining routine from its parent
    cannot be instantiated: [this.parent] looks for the routine on the
    parent of the instance's class, finds the same routine, and calls it
    again with the same instance, without end (the model runs out of any
    amount of fuel; JavaScript exhausts its call stack). *)
Theorem inherited_chaining_never_ends (st : store) k b c cb cc :
  st !! k = Some (FUser chaining_routine) ->
  st !! c = Some (FCustom cc) ->
  truthy (c_abstract cc) = false ->
  ce_construct cc = Some k ->
  ce_parent cc = VFun b ->
  st !! b = Some (FCustom cb) ->
  ce_construct cb = Some k ->
  forall fuel args, construct fuel st c args = Timeout.
Proof.
  intros Hk Hc Hab Hco Hpar Hb Hcb fuel args.
  destruct fuel as [|n].
  - unfold construct. rewrite Hc. reflexivity.
  - rewrite (construct_concrete n st c cc args Hc Hab), Hco.
    by apply (chaining_call_diverges st k b c cb cc).
Qed.

Lemma inherited_chaining_never_ends_witness :
  construct 1000 chain_store 23 [VStr "x"] = Timeout.
Proof.
  exact (inherited_chaining_never_ends chain_store 20 22 23
           (Custom (VStr "app.B") VUndef (VFun 21) (VStr "a") (Some 20))
           (Custom (VStr "app.C") VUndef (VFun 22) (VStr "a") (Some 20))
           eq_refl eq_refl eq_refl eq_refl eq_refl eq_refl eq_refl
           1000 [VStr "x"]).
Defined.

(** ** Names that collide with the Block's own properties *)

(** X8.  An error called ["p"] breaks its Block.  Once [get("p")] has
    returned, [this.p] is the class and no longer the Block's record, and
    every later [get] of a name that is not already a function-valued
    property throws a TypeError and changes nothing. *)
Theorem resolving_p_breaks_block fuel s v s' :
  get fuel "p" s = (Ret v, s') ->
  forall fuel' name, 0 < fuel' -> this_fn (blk s') name = None ->
    get fuel' name s' = (Throw ExTypeError, s').
Proof.
  intros Hget fuel' name Hpos Hnone.
  destruct (get_caches _ _ _ _ _ Hget) as (a & _ & Hfn).
  unfold this_fn in Hfn. change (String.eqb "p" "p") with true in Hfn. simpl in Hfn.
  destruct (p (blk s')) as [r|a'] eqn:Hp; [discriminate|].
  destruct fuel' as [|n]; [lia|]. simpl. by rewrite Hnone, Hp.
Qed.

Lemma resolving_p_breaks_block_witness :
  get 3 "Other" (get 5 "p" p_block).2 = (Throw ExTypeError, (get 5 "p" p_block).2).
Proof.
  apply (resolving_p_breaks_block 5 p_block (VFun 20) (get 5 "p" p_block).2).
  - vm_compute. reflexivity.
  - apply Nat.lt_0_succ.
  - vm_compute. reflexivity.
Defined.

(** ** Cycles of parent references *)

(** X11.  Cycles of string parent references are not detected.  When a
    declared, unresolved name has itself as parent reference (as a bare
    string or as the first element of an array), or two such names have
    each other, [get] calls itself again and again on the very same
    state: it never returns and never throws (the model runs out of any
    amount of fuel), and the Block is left unchanged. *)
Theorem reference_cycle_never_resolves s r :
  p (blk s) = PRec r ->
  dispatches (blk s) "get" get_addr = true ->
  (forall a, refers r a a ->
     this_fn (blk s) a = None -> has_own (errors r) a = Own true ->
     forall fuel, get fuel a s = (Timeout, s)) /\
  (forall a b, refers r a b -> refers r b a ->
     this_fn (blk s) a = None -> this_fn (blk s) b = None ->
     has_own (errors r) a = Own true -> has_own (errors r) b = Own true ->
     forall fuel, get fuel a s = (Timeout, s) /\ get fuel b s = (Timeout, s)).
Proof.
  intros Hp Hd.
  assert (Hstep : forall n x y, refers r x y ->
            this_fn (blk s) x = None -> has_own (errors r) x = Own true ->
            get n y s = (Timeout, s) -> get (S n) x s = (Timeout, s)).
  { intros n x y [fs Hx] Hfx Hox Hy. simpl. rewrite Hfx, Hp, Hox, Hx.
    change (write_back x false fs s) with s.
    by rewrite Hd, Hy. }
  split.
  - intros a Ha Hfa Hoa. induction fuel as [|n IH]; [reflexivity|].
    by apply (Hstep n a a).
  - intros a b Ha Hb Hfa Hfb Hoa Hob. induction fuel as [|n [IHa IHb]].
    + split; reflexivity.
    + split; [by apply (Hstep n a b)|by apply (Hstep n b a)].
Qed.

Lemma reference_cycle_never_resolves_witness :
  get 100 "A" cycle_block = (Timeout, cycle_block) /\
  get 100 "B" cycle_block = (Timeout, cycle_block).
Proof.
  refine (proj2 (reference_cycle_never_resolves cycle_block
                   (Params [("A", VStr "B"); ("B", VArr [VStr "A"; VStr "b"])]
                      (VStr "ns") "ns." (VStr "Base") true)
                   eq_refl eq_refl)
            "A" "B" _ _ eq_refl eq_refl eq_refl eq_refl 100).
  - eexists. reflexivity.
  - eexists. reflexivity.
Defined.

(** ** Writes to the caller's descriptors *)

Lemma this_set_record b name a b' r' :
  this_set b name a = Some b' -> p b' = PRec r' -> p b = PRec r'.
Proof.
  unfold this_set.
  destruct (String.eqb name "p"); [intros E; inversion E; discriminate|].
  destruct (String.eqb name "created"); [intros E; inversion E; auto|].
  destruct (String.eqb name "__proto__"); [discriminate|].
  intros E; inversion E; auto.
Qed.

Lemma write_back_record name fs s r' :
  p (blk (write_back name true fs s)) = PRec r' ->
  field name (errors r') = VObj fs.
Proof.
  unfold write_back. destruct (p (blk s)) as [r|a] eqn:Hp; simpl.
  - intros H; inversion H; subst; simpl. apply field_set_eq.
  - rewrite Hp. discriminate.
Qed.

Lemma throw_not_found_not_ret {A} fuel arg s (v : A) s' :
  throw_not_found fuel arg s <> (Ret v, s').
Proof. unfold throw_not_found. destruct (construct _ _ _ _); discriminate. Qed.

Lemma install_writes name fs parent s full v s' r' :
  field "name" fs = VStr full ->
  install name true fs parent s = (Ret v, s') ->
  p (blk s') = PRec r' ->
  field name (errors r') = VObj (assoc_set "parent" parent fs) /\
  v = VFun (length (fns s)) /\
  fns s' !! length (fns s) = Some (FCustom (resolved_class (fns s) full fs parent)).
Proof.
  intros Hname Hi Hp.
  destruct (install_ret _ _ _ _ _ full _ _ Hname Hi) as [-> Hfns].
  split; [|split; [reflexivity|rewrite Hfns; apply lookup_alloc]].
  unfold install in Hi.
  destruct (create _ _ _ _ _ _) as [[a| | |] st]; try discriminate.
  destruct (this_set _ name a) as [b|] eqn:Hs; [|discriminate].
  inversion Hi; subst; clear Hi. simpl in Hp.
  apply (this_set_record _ _ _ _ _ Hs) in Hp.
  by apply write_back_record in Hp.
Qed.

(** X12.  [get] writes into a dictionary descriptor.  When the descriptor
    of [name] is a dictionary and [get(name)] returns, the dictionary in
    the Block's descriptor map (if the Block still has it) carries the
    prefixed name under [name]; all fields other than [name] and [parent]
    are as before; and [parent] holds either the function that [get]
    returned (the descriptor's parent was a function) or the value that
    [create] was given as parent of the returned class. *)
Theorem get_writes_into_descriptor n s r name fs v s' r' :
  p (blk s) = PRec r ->
  this_fn (blk s) name = None ->
  has_own (errors r) name = Own true ->
  field name (errors r) = VObj fs ->
  get (S n) name s = (Ret v, s') ->
  p (blk s') = PRec r' ->
  exists fs',
    field name (errors r') = VObj fs' /\
    field "name" fs' = VStr (prefix r ++ name) /\
    (forall k, k <> "name" -> k <> "parent" -> field k fs' = field k fs) /\
    (field "parent" fs' = v \/
     exists a c, v = VFun a /\ fns s' !! a = Some (FCustom c) /\
                 ce_parent c = effective_parent (field "parent" fs')).
Proof.
  intros Hp Hfn Hown Hfs. simpl. rewrite Hfn, Hp, Hown, Hfs. simpl normalize.
  set (full := prefix r ++ name).
  set (fs1 := assoc_set "name" (VStr full) fs).
  assert (Hname1 : field "name" fs1 = VStr full) by apply field_set_eq.
  assert (Hother1 : forall k, k <> "name" -> field k fs1 = field k fs).
  { intros k Hk. apply field_set_ne. congruence. }
  assert (Hinstall : forall parent s1,
            install name true fs1 parent s1 = (Ret v, s') -> p (blk s') = PRec r' ->
            exists fs',
              field name (errors r') = VObj fs' /\
              field "name" fs' = VStr full /\
              (forall k, k <> "name" -> k <> "parent" -> field k fs' = field k fs) /\
              (field "parent" fs' = v \/
               exists a c, v = VFun a /\ fns s' !! a = Some (FCustom c) /\
                           ce_parent c = effective_parent (field "parent" fs'))).
  { intros parent s1 Hi Hp'.
    destruct (install_writes _ _ _ _ full _ _ _ Hname1 Hi Hp') as (He & -> & Hc).
    exists (assoc_set "parent" parent fs1). split; [exact He|]. split.
    { rewrite field_set_ne by discriminate. exact Hname1. }
    split.
    { intros k Hk1 Hk2. rewrite field_set_ne by congruence. by apply Hother1. }
    right. eexists _, _. split; [reflexivity|]. split; [exact Hc|].
    rewrite field_set_eq. reflexivity. }
  assert (Hcases : forall ptr,
            (ptr = field "parent" fs1 \/ ptr = VBool true) ->
            match ptr with
            | VFun a =>
                match this_set (blk (write_back name true fs1 s)) name a with
                | Some b => (Ret (VFun a), State (fns (write_back name true fs1 s)) b)
                | None => (Unmodelled, write_back name true fs1 s)
                end
            | VBool true =>
                if dispatches (blk (write_back name true fs1 s)) "getBase" getBase_addr
                then match getBase (write_back name true fs1 s) with
                     | (Ret parent, s1) => install name true fs1 parent s1
                     | other => other
                     end
                else (Unmodelled, write_back name true fs1 s)
            | VBool false => install name true fs1 VNull (write_back name true fs1 s)
            | VStr ref =>
                if dispatches (blk (write_back name true fs1 s)) "get" get_addr
                then match get n ref (write_back name true fs1 s) with
                     | (Ret parent, s1) => install name true fs1 parent s1
                     | other => other
                     end
                else (Unmodelled, write_back name true fs1 s)
            | _ => throw_not_found n ("Error " ++ full ++ " is not found in the block")
                     (write_back name true fs1 s)
            end = (Ret v, s') ->
            p (blk s') = PRec r' ->
            exists fs',
              field name (errors r') = VObj fs' /\
              field "name" fs' = VStr full /\
              (forall k, k <> "name" -> k <> "parent" -> field k fs' = field k fs) /\
              (field "parent" fs' = v \/
               exists a c, v = VFun a /\ fns s' !! a = Some (FCustom c) /\
                           ce_parent c = effective_parent (field "parent" fs'))).
  { intros ptr Hptr.
    destruct ptr as [| |[|]| |ref|a| |];
      try (intros H; by apply throw_not_found_not_ret in H).
    - destruct (dispatches _ _ _); [|discriminate].
      destruct (getBase _) as [[parent| | |] s1]; try discriminate.
      apply Hinstall.
    - apply Hinstall.
    - destruct (dispatches _ _ _); [|discriminate].
      destruct (get n ref _) as [[parent| | |] s1]; try discriminate.
      apply Hinstall.
    - destruct (this_set _ name a) as [b|] eqn:Hs; [|discriminate].
      intros H Hp'. inversion H; subst; clear H. simpl in Hp'.
      apply (this_set_record _ _ _ _ _ Hs) in Hp'.
      apply write_back_record in Hp'.
      exists fs1. split; [exact Hp'|]. split; [exact Hname1|]. split.
      + intros k Hk _. by apply Hother1.
      + left. destruct Hptr as [Hptr|Hptr]; [by rewrite <- Hptr|discriminate]. }
  destruct (has_own fs1 "parent") as [[|]| |]; try discriminate.
  - intros H. exact (Hcases (field "parent" fs1) (or_introl eq_refl) H).
  - intros H. exact (Hcases (VBool true) (or_intror eq_refl) H).
Qed.

Lemma get_writes_into_descriptor_witness :
  exists fs',
    field "Loose" (errors (Params
        (assoc_set "Loose"
           (VObj [("defmessage", VStr "loose"); ("name", VStr "ns.Loose");
                  ("parent", VFun 20)]) alias_errors)
        (VStr "ns") "ns." (VFun 20) true)) = VObj fs' /\
    field "name" fs' = VStr ("ns." ++ "Loose") /\
    (forall k, k <> "name" -> k <> "parent" ->
       field k fs' = field k [("defmessage", VStr "loose")]) /\
    (field "parent" fs' = VFun 21 \/
     exists a c, VFun 21 = VFun a /\
                 fns (get 5 "Loose" alias_block).2 !! a = Some (FCustom c) /\
                 ce_parent c = effective_parent (field "parent" fs')).
Proof.
  apply (get_writes_into_descriptor 4 alias_block alias_params "Loose"
           [("defmessage", VStr "loose")] (VFun 21) (get 5 "Loose" alias_block).2).
  - reflexivity.
  - reflexivity.
  - reflexivity.
  - reflexivity.
  - vm_compute. reflexivity.
  - vm_compute. reflexivity.
Defined.

(** ** The two calling conventions of [create] *)


